(** * Pulse: feedback ingestion, classification and query interpretation

    A shallow embedding of the two request handlers of the repository:

    - [Worker.fetch], the D1 + Workers AI handler (POST /feedback,
      GET /feedback, GET /api/feedback, GET /api/insights, GET /dashboard);
    - [Prototype.fetch], the in-memory handler of [my-pulse-app/src/index.ts].

    Modelling conventions.

    - A JavaScript string is a list of code units, [list ascii]: the model
      covers the strings whose code units are below 256.  On these,
      [toLowerCase] maps A-Z and the capital letters 192-222 (except the
      sign 215) to the letter 32 above; white space is TAB, LF, VT, FF, CR,
      SPACE and the no-break space 160; the line terminators are LF and
      CR.  [toUpperCase] is the folding of a-z only, which is what the
      flag /i and SQLite's LIKE apply to the ASCII letters of a pattern,
      and it decides as JavaScript's does whether a string upper-cases to
      an ASCII word.
    - A JavaScript number is an exact dyadic rational [m * 2^e], NaN or an
      infinity; every finite binary64 value is such a dyadic, and the
      comparisons below are exact.
    - A thrown exception is a [Throw] completion; one that leaves [fetch]
      is an uncaught exception of the request.
    - The external collaborators (the JSON parser of the request body, the
      classifier, the clock and the D1 engine) are parameters: a request
      carries its parsed body, the environment [Env] says what the
      classifier answers, which statements D1 runs and how D1 turns a
      bound value that is no text into the text of a TEXT column, and
      [D1Engine] gives the meaning of the statements on the table.  The table and the log
      of external calls are threaded through every handler as an explicit
      [World].

    Layout: the embedding of the source, then [Spec], the operations as the
    specification words them, then the properties. *)

From Stdlib Require Import List Ascii ZArith Bool Arith Lia Permutation Sorted.
From Stdlib Require String.
Import ListNotations.
Import String.StringSyntax.
Delimit Scope string_scope with string.
Bind Scope string_scope with String.string.

Set Implicit Arguments.

(* ====================================================================== *)
(** * JavaScript strings *)
(* ====================================================================== *)

Module JsString.

Definition str := list ascii.

(** String literals of the source. *)
Definition lit (s : String.string) : str := String.list_ascii_of_string s.

Definition code (c : ascii) : nat := nat_of_ascii c.

Definition isUpper (c : ascii) : bool := (65 <=? code c) && (code c <=? 90).
Definition isLower (c : ascii) : bool := (97 <=? code c) && (code c <=? 122).

(** The capital letters of the upper half: 192-222 without the
    multiplication sign 215. *)
Definition isUpperLatin (c : ascii) : bool :=
  (192 <=? code c) && (code c <=? 222) && negb (code c =? 215).

Definition lowerChar (c : ascii) : ascii :=
  if isUpper c || isUpperLatin c then ascii_of_nat (code c + 32) else c.
Definition upperChar (c : ascii) : ascii :=
  if isLower c then ascii_of_nat (code c - 32) else c.

(** [String.prototype.toLowerCase] / [toUpperCase]. *)
Definition toLowerCase (s : str) : str := map lowerChar s.
Definition toUpperCase (s : str) : str := map upperChar s.

(** White space of [trim] and of the regular-expression class [\s]. *)
Definition isSpace (c : ascii) : bool :=
  ((9 <=? code c) && (code c <=? 13)) || (code c =? 32) || (code c =? 160).

(** Line terminators, the complement of the regular-expression class [.]. *)
Definition isLineTerminator (c : ascii) : bool :=
  (code c =? 10) || (code c =? 13).

Definition isDot (c : ascii) : bool := negb (isLineTerminator c).

Fixpoint trimStart (s : str) : str :=
  match s with
  | c :: s' => if isSpace c then trimStart s' else s
  | [] => []
  end.

Definition trimEnd (s : str) : str := rev (trimStart (rev s)).

(** [String.prototype.trim]. *)
Definition trim (s : str) : str := trimEnd (trimStart s).

(** [s.substring(0, n)]. *)
Definition substring0 (n : nat) (s : str) : str := firstn n s.

Definition str_eqb (a b : str) : bool :=
  if list_eq_dec ascii_dec a b then true else false.

Fixpoint startsWith (s t : str) {struct t} : bool :=
  match t, s with
  | [], _ => true
  | d :: t', c :: s' => Ascii.eqb c d && startsWith s' t'
  | _ :: _, [] => false
  end.

(** [s.includes(t)]: [t] occurs in [s] at some position. *)
Fixpoint includes (s t : str) : bool :=
  startsWith s t ||
  match s with
  | [] => false
  | _ :: s' => includes s' t
  end.

End JsString.
Import JsString.

(* ====================================================================== *)
(** * The regular expressions of the query interpreter *)
(* ====================================================================== *)

(** A backtracking matcher for the fragment of ECMAScript regular
    expressions that [/about\s+(.+?)(?:\s|$)/i] and
    [/with\s+(.+?)(?:\s|$)/i] are written in.  Alternatives are tried left
    to right, a greedy quantifier tries the longer iteration first and a
    lazy one the shorter, as the specification of [RegExp.prototype.exec]
    prescribes; the continuation [k] is the rest of the pattern. *)
Module RegExp.

Inductive re : Type :=
| Chr (c : ascii)              (* a literal character, under the /i flag *)
| Cls (p : ascii -> bool)      (* a character class: \s or . *)
| Eos                          (* $ without the /m flag *)
| Cat (r1 r2 : re)
| Alt (r1 r2 : re)
| PlusG (p : ascii -> bool)    (* p+  greedy *)
| PlusL (p : ascii -> bool)    (* p+? lazy *)
| Grp (r : re).                (* the capture group ( ... ) *)

(** The match state: the input still to be read and the capture. *)
Definition cont (A : Type) := str -> option str -> option A.

Definition orElse {A} (x y : option A) : option A :=
  match x with Some a => Some a | None => y end.

Fixpoint plusG {A} (p : ascii -> bool) (k : str -> option A) (s : str)
  : option A :=
  match s with
  | c :: s' => if p c then orElse (plusG p k s') (k s') else None
  | [] => None
  end.

Fixpoint plusL {A} (p : ascii -> bool) (k : str -> option A) (s : str)
  : option A :=
  match s with
  | c :: s' => if p c then orElse (k s') (plusL p k s') else None
  | [] => None
  end.

Fixpoint m {A} (r : re) (k : cont A) (s : str) (cap : option str)
  : option A :=
  match r with
  | Chr c =>
      match s with
      | d :: s' =>
          if Ascii.eqb (upperChar c) (upperChar d) then k s' cap else None
      | [] => None
      end
  | Cls p =>
      match s with
      | d :: s' => if p d then k s' cap else None
      | [] => None
      end
  | Eos => match s with [] => k s cap | _ :: _ => None end
  | Cat r1 r2 => m r1 (fun s' cap' => m r2 k s' cap') s cap
  | Alt r1 r2 => orElse (m r1 k s cap) (m r2 k s cap)
  | PlusG p => plusG p (fun s' => k s' cap) s
  | PlusL p => plusL p (fun s' => k s' cap) s
  | Grp r =>
      m r (fun s' _ => k s' (Some (firstn (length s - length s') s))) s cap
  end.

(** A match attempt anchored at the head of [s]; the result is group 1. *)
Definition matchHere (r : re) (s : str) : option (option str) :=
  m r (fun _ cap => Some cap) s None.

(** [s.match(r)] for a non-global [r]: the leftmost start position at
    which the pattern matches; [None] is JavaScript's [null]. *)
Fixpoint exec (r : re) (s : str) : option (option str) :=
  orElse (matchHere r s)
    match s with
    | [] => None
    | _ :: s' => exec r s'
    end.

Fixpoint word (w : str) (r : re) : re :=
  match w with
  | [] => r
  | c :: w' => Cat (Chr c) (word w' r)
  end.

(** [/<w>\s+(.+?)(?:\s|$)/i] *)
Definition phraseAfter (w : str) : re :=
  word w (Cat (PlusG isSpace)
           (Cat (Grp (PlusL isDot)) (Alt (Cls isSpace) Eos))).

Definition aboutRe : re := phraseAfter (lit "about").
Definition withRe : re := phraseAfter (lit "with").

(** [m[1]] of a successful match. *)
Definition group1 (mt : option str) : str :=
  match mt with Some c => c | None => [] end.

End RegExp.

Import RegExp.

(* ====================================================================== *)
(** * JavaScript numbers and JSON values *)
(* ====================================================================== *)

Module JsNumber.

Inductive number : Type :=
| NaN
| Infinity (negative : bool)
| Dyadic (m e : Z).             (* m * 2^e *)

(** The sign of [m1 * 2^e1 - m2 * 2^e2], computed over the integers. *)
Definition dyadic_compare (m1 e1 m2 e2 : Z) : comparison :=
  let e := Z.min e1 e2 in
  Z.compare (m1 * 2 ^ (e1 - e)) (m2 * 2 ^ (e2 - e)).

(** [x >= y]; any comparison with NaN is false. *)
Definition ge (x y : number) : bool :=
  match x, y with
  | NaN, _ | _, NaN => false
  | Infinity false, _ => true
  | _, Infinity true => true
  | Infinity true, _ => false
  | _, Infinity false => false
  | Dyadic m1 e1, Dyadic m2 e2 =>
      match dyadic_compare m1 e1 m2 e2 with Lt => false | _ => true end
  end.

(** [x < y]. *)
Definition lt (x y : number) : bool :=
  match x, y with
  | NaN, _ | _, NaN => false
  | Infinity false, _ => false
  | _, Infinity true => false
  | Infinity true, _ => true
  | _, Infinity false => true
  | Dyadic m1 e1, Dyadic m2 e2 =>
      match dyadic_compare m1 e1 m2 e2 with Lt => true | _ => false end
  end.

(** ToBoolean on a number: NaN, +0 and -0 are falsy. *)
Definition truthy (x : number) : bool :=
  match x with
  | NaN => false
  | Infinity _ => true
  | Dyadic m _ => negb (m =? 0)%Z
  end.

(** The literal [0.6]: the binary64 value nearest to 6/10,
    [0x3FE3333333333333]. *)
Definition lit_0_6 : number := Dyadic 5404319552844595 (-53).

Definition ofZ (z : Z) : number := Dyadic z 0.

End JsNumber.
Import JsNumber.

Module Json.

#[warnings="-register-all"]
Inductive json : Type :=
| JNull
| JBool (b : bool)
| JNum (n : number)
| JStr (s : str)
| JArr (l : list json)
| JObj (members : list (str * json)).

(** A JavaScript value read from a parsed body: [None] is [undefined]. *)
Definition value := option json.

(** Own property of an object built by [JSON.parse]: of duplicate
    members the last one wins. *)
Fixpoint lookup (k : str) (members : list (str * json)) : value :=
  match members with
  | [] => None
  | (k', v) :: rest =>
      match lookup k rest with
      | Some v' => Some v'
      | None => if str_eqb k k' then Some v else None
      end
  end.

(** ToBoolean. *)
Definition toBoolean (v : value) : bool :=
  match v with
  | None | Some JNull => false
  | Some (JBool b) => b
  | Some (JNum n) => JsNumber.truthy n
  | Some (JStr s) => negb (str_eqb s [])
  | Some (JArr _) | Some (JObj _) => true
  end.

(** [typeof v === "string"]. *)
Definition isString (v : value) : bool :=
  match v with Some (JStr _) => true | _ => false end.

(** [v ?? d]. *)
Definition nullish (v : value) (d : json) : json :=
  match v with
  | None | Some JNull => d
  | Some j => j
  end.

Definition ofOptStr (o : option str) : json :=
  match o with Some s => JStr s | None => JNull end.

End Json.
Import Json.

(* ====================================================================== *)
(** * Completions, the world and the external capabilities *)
(* ====================================================================== *)

Inductive Exn : Type :=
| SyntaxError      (* [request.json()] rejected *)
| TypeError        (* a property of null, or a call of a non-function *)
| AiError          (* [env.AI.run] rejected *)
| D1Error.         (* a D1 statement rejected *)

Inductive Completion (A : Type) : Type :=
| Normal (a : A)
| Throw (e : Exn).
Arguments Throw {A} e.

(** The classifier's answer: [Array<{ label?: string; score?: number }>]. *)
Record AiResult : Type := mkAiResult {
  label : option str;
  score : option number
}.

Inductive Sentiment : Type := positive | negative | neutral.

Definition sentimentName (s : Sentiment) : str :=
  match s with
  | positive => lit "positive"
  | negative => lit "negative"
  | neutral => lit "neutral"
  end.

(** A row of the [feedback] table of [schema.sql]. *)
Record Row : Type := mkRow {
  id : Z;
  text : str;
  source : json;                  (* TEXT, nullable: [JNull] is NULL *)
  sentiment : option str;         (* TEXT, nullable *)
  created_at : str
}.

Inductive Cond : Type :=
| SentimentEq (s : str)           (* AND sentiment = ? *)
| TextLike (pattern : str).       (* AND text LIKE ? *)

Inductive Stmt : Type :=
| Insert (text : str) (source : json) (sentiment created_at : str)
| Select (conds : list Cond) (limit : nat)
| SelectCounts.

Inductive Call : Type :=
| CallAI (text : str)
| CallD1 (stmt : Stmt).

Record World : Type := mkWorld {
  rows : list Row;                (* the feedback table, in insertion order *)
  seq : Z;                        (* the AUTOINCREMENT counter *)
  calls : list Call               (* the external calls made so far *)
}.

Record Env : Type := mkEnv {
  AI : str -> option (list AiResult);   (* [None]: the model call fails *)
  D1 : Stmt -> bool;                    (* does the engine run the statement *)
  asText : json -> json;                (* a bound value that is neither NULL
                                           nor a string, as a TEXT column
                                           keeps it (the number 5 as "5.0") *)
  clock : str                           (* [new Date().toISOString()] *)
}.

Definition M (A : Type) : Type := World -> Completion A * World.

Definition ret {A} (a : A) : M A := fun w => (Normal a, w).
Definition throw {A} (e : Exn) : M A := fun w => (Throw e, w).
Definition bind {A B} (c : M A) (k : A -> M B) : M B :=
  fun w =>
    match c w with
    | (Normal a, w') => k a w'
    | (Throw e, w') => (Throw e, w')
    end.
Definition tryCatch {A} (c : M A) (h : Exn -> M A) : M A :=
  fun w =>
    match c w with
    | (Normal a, w') => (Normal a, w')
    | (Throw e, w') => h e w'
    end.

Declare Scope js_scope.
Delimit Scope js_scope with js.
Notation "x <- c ;; k" := (bind c (fun x => k))
  (at level 61, c at next level, right associativity) : js_scope.
Notation "c ;; k" := (bind c (fun _ => k))
  (at level 61, right associativity) : js_scope.
Open Scope js_scope.

Definition logCall (c : Call) : M unit :=
  fun w => (Normal tt, mkWorld (rows w) (seq w) (calls w ++ [c])).

(* ====================================================================== *)
(** * The D1 engine on the statements the handlers prepare *)
(* ====================================================================== *)

Module D1Engine.

(** SQLite's [LIKE]: [%] matches any run of characters, [_] any one
    character, and any other character matches itself up to ASCII case.
    There is no escape character unless the statement declares one. *)
Fixpoint like (pattern : str) : str -> bool :=
  match pattern with
  | [] => fun t => match t with [] => true | _ :: _ => false end
  | c :: p' =>
      if Ascii.eqb c "%" then
        fix star (t : str) : bool :=
          like p' t || match t with [] => false | _ :: t' => star t' end
      else if Ascii.eqb c "_" then
        fun t => match t with [] => false | _ :: t' => like p' t' end
      else
        fun t =>
          match t with
          | [] => false
          | d :: t' => Ascii.eqb (upperChar c) (upperChar d) && like p' t'
          end
  end.

Definition holds (r : Row) (c : Cond) : bool :=
  match c with
  | SentimentEq s =>
      match sentiment r with
      | Some s' => str_eqb s' s
      | None => false           (* NULL = ? is never true *)
      end
  | TextLike p => like p (text r)
  end.

(** Lexicographic order on code units (the BINARY collation). *)
Fixpoint str_ltb (a b : str) : bool :=
  match a, b with
  | _, [] => false
  | [], _ :: _ => true
  | c :: a', d :: b' =>
      (code c <? code d) || ((code c =? code d) && str_ltb a' b')
  end.

(** ORDER BY created_at DESC: [r], a row stored before those of [l], goes
    behind the rows of [l] that are strictly newer and before all others,
    so rows of equal created_at come out in the order they were stored
    (lowest id first). *)
Fixpoint insertDesc (r : Row) (l : list Row) : list Row :=
  match l with
  | [] => [r]
  | x :: l' =>
      if str_ltb (created_at r) (created_at x) then x :: insertDesc r l'
      else r :: l
  end.

Definition orderDesc (l : list Row) : list Row := fold_right insertDesc [] l.

(** SELECT ... WHERE 1=1 <conds> ORDER BY created_at DESC LIMIT <limit> *)
Definition select (conds : list Cond) (limit : nat) (table : list Row)
  : list Row :=
  firstn limit
    (orderDesc (filter (fun r => forallb (holds r) conds) table)).

(** The number of rows whose sentiment is [s]. *)
Definition countOf (s : str) (table : list Row) : nat :=
  List.length (filter (fun r => holds r (SentimentEq s)) table).

(** The value of a TEXT column for a bound value: NULL and text are kept,
    anything else is converted by the engine. *)
Definition textColumn (env : Env) (v : json) : json :=
  match v with
  | JNull => JNull
  | JStr s => JStr s
  | _ => asText env v
  end.

(** Group keys: NULL is a key of its own and sorts first. *)
Definition key_eqb (a b : option str) : bool :=
  match a, b with
  | Some x, Some y => str_eqb x y
  | None, None => true
  | _, _ => false
  end.

Definition key_ltb (a b : option str) : bool :=
  match a, b with
  | None, Some _ => true
  | Some x, Some y => str_ltb x y
  | _, _ => false
  end.

Fixpoint insertKey (k : option str) (groups : list (option str * nat))
  : list (option str * nat) :=
  match groups with
  | [] => [(k, 1)]
  | (k', n) :: g =>
      if key_ltb k k' then (k, 1) :: groups else (k', n) :: insertKey k g
  end.

(** One more row of sentiment [k]: its group counts one more, or a new
    group of one row takes its place among the keys. *)
Definition bump (k : option str) (groups : list (option str * nat))
  : list (option str * nat) :=
  if existsb (fun e => key_eqb k (fst e)) groups
  then map (fun e => if key_eqb k (fst e) then (fst e, S (snd e)) else e) groups
  else insertKey k groups.

(** SELECT sentiment, COUNT( * ) as count FROM feedback GROUP BY sentiment:
    one result per distinct sentiment with the number of its rows. *)
Definition groupBySentiment (table : list Row) : list (option str * nat) :=
  fold_left (fun groups r => bump (sentiment r) groups) table [].

End D1Engine.

(* ====================================================================== *)
(** * The worker: POST /feedback, GET /feedback, GET /api/feedback,
      GET /api/insights, GET /dashboard *)
(* ====================================================================== *)

Inductive Body : Type :=
| JsonBody (j : json)             (* JSON.stringify(j) *)
| TextBody (s : str)
| HtmlBody (nPositive nNeutral nNegative : nat).

Record Response : Type := mkResponse {
  status : nat;
  body : Body
}.

Record Request : Type := mkRequest {
  method : str;
  pathname : str;
  searchParams : list (str * str);
  payload : option json           (* [None]: [request.json()] rejects *)
}.

Module Worker.

Definition errorResponse (st : nat) (msg : String.string) : Response :=
  mkResponse st (JsonBody (JObj [(lit "error", JStr (lit msg))])).

Definition successResponse : Response :=
  mkResponse 200 (JsonBody (JObj [(lit "success", JBool true)])).

(** [body.k]: reading a property of [null] throws. *)
Definition member (b : json) (k : str) : M value :=
  match b with
  | JNull => throw TypeError
  | JObj members => ret (lookup k members)
  | _ => ret None
  end.

(** [v.trim()]: only a string has the method. *)
Definition callTrim (v : value) : M str :=
  match v with
  | Some (JStr s) => ret (trim s)
  | _ => throw TypeError
  end.

(** The string behind a value already known to be one. *)
Definition stringOf (v : value) : str :=
  match v with Some (JStr s) => s | _ => [] end.

(** [await env.AI.run("@cf/huggingface/distilbert-sst-2-int8", { text })] *)
Definition AI_run (env : Env) (t : str) : M (list AiResult) :=
  logCall (CallAI t) ;;
  match AI env t with
  | Some r => ret r
  | None => throw AiError
  end.

Definition truthyScore (o : option number) : bool :=
  match o with Some n => JsNumber.truthy n | None => false end.

Definition scoreGe (o : option number) (y : number) : bool :=
  match o with Some n => JsNumber.ge n y | None => false end.

(** The string behind a [string | undefined] already known to be set. *)
Definition stringOfOpt (o : option str) : str :=
  match o with Some l => l | None => [] end.

(** Truthiness of a [string | undefined] or [string | null]. *)
Definition truthyStr (o : option str) : bool :=
  match o with Some s => negb (str_eqb s []) | None => false end.

(** Lines 209-215: the three-way sentiment of a classifier answer. *)
Definition normalizeSentiment (aiResult : list AiResult) : Sentiment :=
  match hd_error aiResult with           (* aiResult[0] *)
  | Some topResult =>
      if truthyScore (score topResult)
         && scoreGe (score topResult) lit_0_6
         && truthyStr (label topResult)
      then
        if str_eqb (toUpperCase (stringOfOpt (label topResult)))
                   (lit "POSITIVE")
        then positive else negative
      else neutral
  | None => neutral
  end.

(** [await env.DB.prepare("INSERT INTO feedback ...").bind(...).run()] *)
Definition D1_run (env : Env) (t : str) (src : json) (sent created : str)
  : M unit :=
  let stmt := Insert t src sent created in
  logCall (CallD1 stmt) ;;
  if D1 env stmt then
    fun w =>
      let i := (seq w + 1)%Z in
      (Normal tt,
       mkWorld (rows w ++ [mkRow i t (D1Engine.textColumn env src)
                                 (Some sent) created])
               i (calls w))
  else throw D1Error.

(** [await env.DB.prepare("SELECT ...").bind(...).all()], its [results]. *)
Definition D1_all (env : Env) (conds : list Cond) (limit : nat)
  : M (list Row) :=
  let stmt := Select conds limit in
  logCall (CallD1 stmt) ;;
  if D1 env stmt then fun w => (Normal (D1Engine.select conds limit (rows w)), w)
  else throw D1Error.

(** [await env.DB.prepare("SELECT sentiment, COUNT( * ) ...").all()], its
    [results]. *)
Definition D1_counts (env : Env) : M (list (option str * nat)) :=
  logCall (CallD1 SelectCounts) ;;
  if D1 env SelectCounts
  then fun w => (Normal (D1Engine.groupBySentiment (rows w)), w)
  else throw D1Error.

(** [counts]: a [Record<string, number>], read at one key; the keys of
    line 376 start at 0 and no other key is ever read. *)
Definition Counts : Type := str -> nat.

Definition initialCounts : Counts := fun _ => 0.

(** [counts[row.sentiment] = row.count]; a NULL sentiment is the key
    "null". *)
Definition setCount (counts : Counts) (k : option str) (n : nat) : Counts :=
  fun s => if str_eqb s (match k with Some x => x | None => lit "null" end)
           then n else counts s.

(** Lines 376-379: the loop over the grouped results. *)
Definition countsLoop (results : list (option str * nat)) : Counts :=
  fold_left (fun counts row => setCount counts (fst row) (snd row))
            results initialCounts.

Definition rowJson (r : Row) : json :=
  JObj [(lit "id", JNum (ofZ (id r)));
        (lit "text", JStr (text r));
        (lit "source", source r);
        (lit "sentiment", ofOptStr (sentiment r));
        (lit "created_at", JStr (created_at r))].

Definition feedbackResponse (results : list Row) : Response :=
  mkResponse 200 (JsonBody (JObj [(lit "feedback", JArr (map rowJson results))])).

(** Lines 183-240: POST /feedback. *)
Definition postFeedback (env : Env) (req : Request) : M Response :=
  match payload req with
  | None => ret (errorResponse 400 "Invalid JSON")
  | Some body =>
      text <- member body (lit "text") ;;
      invalid <- (if negb (toBoolean text) then ret true
                  else t <- callTrim text ;; ret (str_eqb t [])) ;;
      if invalid : bool
      then ret (errorResponse 400 "Missing or empty text field")
      else
        tryCatch
          (aiResult <- AI_run env (stringOf text) ;;
           let sentiment := normalizeSentiment aiResult in
           source <- member body (lit "source") ;;
           D1_run env (stringOf text) (nullish source JNull)
                  (sentimentName sentiment) (clock env) ;;
           ret successResponse)
          (fun _ => ret (errorResponse 500 "Failed to store feedback"))
  end.

(** Lines 246-266: GET /feedback. *)
Definition getFeedback (env : Env) : M Response :=
  tryCatch
    (results <- D1_all env [] 20 ;;
     ret (feedbackResponse results))
    (fun _ => ret (errorResponse 500 "Failed to retrieve feedback")).

(** [url.searchParams.get(k)]: the first value of [k], or [null]. *)
Fixpoint searchGet (k : str) (params : list (str * str)) : option str :=
  match params with
  | [] => None
  | (k', v) :: rest => if str_eqb k k' then Some v else searchGet k rest
  end.

(** Lines 278-289: the WHERE clause and its bindings. *)
Definition buildConds (sentiment keyword : option str) : list Cond :=
  (if truthyStr sentiment
   then [SentimentEq (stringOfOpt sentiment)] else []) ++
  (if truthyStr keyword
   then [TextLike (lit "%" ++ stringOfOpt keyword ++ lit "%")] else []).

(** Lines 273-309: GET /api/feedback. *)
Definition getApiFeedback (env : Env) (req : Request) : M Response :=
  tryCatch
    (let sentiment := searchGet (lit "sentiment") (searchParams req) in
     let keyword := searchGet (lit "keyword") (searchParams req) in
     results <- D1_all env (buildConds sentiment keyword) 50 ;;
     ret (feedbackResponse results))
    (fun _ => ret (errorResponse 500 "Failed to retrieve feedback")).

Record Filters : Type := mkFilters {
  f_sentiment : option Sentiment;     (* filters.sentiment, or null *)
  f_keyword : option str              (* filters.keyword, or null *)
}.

Definition anyIncludes (s : str) (words : list str) : bool :=
  existsb (includes s) words.

(** Lines 331-337: the sentiment intent of the lower-cased query. *)
Definition detectSentiment (lowerQuery : str) : option Sentiment :=
  if anyIncludes lowerQuery
       [lit "positive"; lit "good"; lit "great"; lit "excellent"]
  then Some positive
  else if anyIncludes lowerQuery
       [lit "negative"; lit "bad"; lit "issue"; lit "problem"; lit "bug"]
  then Some negative
  else if includes lowerQuery (lit "neutral")
  then Some neutral
  else None.

(** [m[1].trim().substring(0, 50)]; an unset group has no [trim]. *)
Definition keywordOfMatch (mt : option str) : Completion str :=
  match mt with
  | Some c => Normal (substring0 50 (trim c))
  | None => Throw TypeError
  end.

(** Lines 327-350: the body of the [try] block of GET /api/insights. *)
Definition interpret (query : str) : Completion Filters :=
  let lowerQuery := toLowerCase query in
  let sentiment := detectSentiment lowerQuery in
  let aboutMatch := exec aboutRe lowerQuery in
  let withMatch := exec withRe lowerQuery in
  match aboutMatch with
  | Some mt =>
      match keywordOfMatch mt with
      | Normal k => Normal (mkFilters sentiment (Some k))
      | Throw e => Throw e
      end
  | None =>
      match withMatch with
      | Some mt =>
          match keywordOfMatch mt with
          | Normal k => Normal (mkFilters sentiment (Some k))
          | Throw e => Throw e
          end
      | None =>
          match sentiment with
          | None => Normal (mkFilters sentiment
                              (Some (substring0 50 (trim query))))
          | Some _ => Normal (mkFilters sentiment None)
          end
      end
  end.

Definition filtersJson (f : Filters) : json :=
  JObj [(lit "filters",
         JObj [(lit "sentiment",
                ofOptStr (option_map sentimentName (f_sentiment f)));
               (lit "keyword", ofOptStr (f_keyword f))])].

(** Lines 315-363: GET /api/insights. *)
Definition getApiInsights (req : Request) : M Response :=
  match searchGet (lit "q") (searchParams req) with
  | Some query =>
      if truthyStr (Some query) then
        match interpret query with
        | Normal filters => ret (mkResponse 200 (JsonBody (filtersJson filters)))
        | Throw _ => ret (errorResponse 500 "Failed to interpret query")
        end
      else ret (errorResponse 400 "Missing query parameter 'q'")
  | None => ret (errorResponse 400 "Missing query parameter 'q'")
  end.

(** Lines 369-629: GET /dashboard. *)
Definition getDashboard (env : Env) : M Response :=
  tryCatch
    (countsResult <- D1_counts env ;;
     let counts := countsLoop countsResult in
     ret (mkResponse 200 (HtmlBody (counts (lit "positive"))
                                   (counts (lit "neutral"))
                                   (counts (lit "negative")))))
    (fun _ => ret (mkResponse 500 (TextBody (lit "Failed to load dashboard")))).

Definition route (req : Request) (path meth : String.string) : bool :=
  str_eqb (pathname req) (lit path) && str_eqb (method req) (lit meth).

Definition fetch (env : Env) (req : Request) : M Response :=
  if route req "/feedback" "POST" then postFeedback env req
  else if route req "/feedback" "GET" then getFeedback env
  else if route req "/api/feedback" "GET" then getApiFeedback env req
  else if route req "/api/insights" "GET" then getApiInsights req
  else if route req "/dashboard" "GET" then getDashboard env
  else ret (mkResponse 404 (TextBody (lit "Not Found"))).

End Worker.

(* ====================================================================== *)
(** * The in-memory prototype of [my-pulse-app/src/index.ts] *)
(* ====================================================================== *)

Module Prototype.

(** An element of [feedbackStore]. *)
Record Entry : Type := mkEntry {
  e_text : str;
  e_source : json;
  e_createdAt : str
}.

Definition feedbackStore := list Entry.

(** The body of the [try] block of POST /feedback, lines 16-36. *)
Definition tryPost (now : str) (req : Request) (store : feedbackStore)
  : Completion Response * feedbackStore :=
  match payload req with
  | None => (Throw SyntaxError, store)    (* request.json() rejects *)
  | Some JNull => (Throw TypeError, store)  (* body.text on null *)
  | Some b =>
      let text := match b with JObj ms => lookup (lit "text") ms | _ => None end in
      let source := match b with JObj ms => lookup (lit "source") ms | _ => None end in
      if negb (toBoolean text) || negb (isString text)
         || (List.length (trim (Worker.stringOf text)) =? 0)
      then (Normal (Worker.errorResponse 400 "Missing or empty text field"), store)
      else
        (Normal Worker.successResponse,
         store ++ [mkEntry (Worker.stringOf text)
                           (nullish source (JStr (lit "unknown"))) now])
  end.

Definition fetch (now : str) (req : Request) (store : feedbackStore)
  : Response * feedbackStore :=
  if Worker.route req "/feedback" "POST" then
    match tryPost now req store with
    | (Normal r, store') => (r, store')
    | (Throw _, store') => (Worker.errorResponse 400 "Invalid JSON", store')
    end
  else (mkResponse 404 (TextBody (lit "Not Found")), store).

End Prototype.

(* ====================================================================== *)
(** * The script of the dashboard page *)
(* ====================================================================== *)

(** The filter state of the page and the requests its event handlers send
    (src/README.md lines 524-603).  The DOM updates and [alert] are left
    out; a query string built with [URLSearchParams] or
    [encodeURIComponent] is taken to reach [url.searchParams] as the list
    of pairs it was built from, and [response.json()] to give back the
    value the worker stringified. *)
Module Dashboard.

(** [currentFilter] *)
Record Filter : Type := mkFilter {
  cf_sentiment : option str;
  cf_keyword : option str
}.

Definition initialFilter : Filter := mkFilter None None.

(** [x || null] on a [string | null | undefined]. *)
Definition orNull (o : option str) : option str :=
  if Worker.truthyStr o then o else None.

(** Lines 527-529: the parameters [loadFeedback] appends. *)
Definition feedbackParams (cur : Filter) : list (str * str) :=
  (if Worker.truthyStr (cf_sentiment cur)
   then [(lit "sentiment", Worker.stringOfOpt (cf_sentiment cur))] else []) ++
  (if Worker.truthyStr (cf_keyword cur)
   then [(lit "keyword", Worker.stringOfOpt (cf_keyword cur))] else []).

Definition feedbackRequest (cur : Filter) : Request :=
  mkRequest (lit "GET") (lit "/api/feedback") (feedbackParams cur) None.

(** Lines 526-539, [loadFeedback]: the request it sends and the answer it
    is given to render. *)
Definition loadFeedback (env : Env) (cur : Filter) : M Response :=
  Worker.fetch env (feedbackRequest cur).

Definition optStr_eqb (a b : option str) : bool :=
  match a, b with
  | Some x, Some y => str_eqb x y
  | None, None => true
  | _, _ => false
  end.

(** Lines 566-571: a click on a card selects its sentiment, or clears the
    selection when the card is the selected one. *)
Definition toggle (s : str) (cur : Filter) : Filter :=
  if optStr_eqb (cf_sentiment cur) (Some s)
  then mkFilter None (cf_keyword cur)
  else mkFilter (Some s) (cf_keyword cur).

(** Lines 577-579 and 599-601: the page has a card for each of the three
    sentiments; marking the card of any other non-empty sentiment throws
    ([querySelector] finds nothing). *)
Definition hasCard (o : option str) : bool :=
  negb (Worker.truthyStr o) ||
  existsb (str_eqb (Worker.stringOfOpt o))
          [lit "positive"; lit "neutral"; lit "negative"].

(** Lines 565-582, [filterBySentiment]: the new filter, and the reload
    unless marking the card threw. *)
Definition filterBySentiment (env : Env) (s : str) (cur : Filter)
  : Filter * option (M Response) :=
  (toggle s cur,
   if hasCard (cf_sentiment (toggle s cur))
   then Some (loadFeedback env (toggle s cur)) else None).

(** [v || null] for a field of [data.filters]; [None] stands for a value
    that is neither a string nor null, which the worker never sends. *)
Definition readField (v : value) : option (option str) :=
  match v with
  | None | Some JNull => Some None
  | Some (JStr s) => Some (orNull (Some s))
  | Some _ => None
  end.

(** Lines 592-593: the two reads of [data.filters]; [None] also when a
    read throws ([data] or [data.filters] is null or undefined). *)
Definition readFilters (data : json) : option Filter :=
  match data with
  | JObj ms =>
      match lookup (lit "filters") ms with
      | None | Some JNull => None
      | Some (JObj fs) =>
          match readField (lookup (lit "sentiment") fs),
                readField (lookup (lit "keyword") fs) with
          | Some s, Some k => Some (mkFilter s k)
          | _, _ => None
          end
      | Some _ => Some (mkFilter None None)
      end
  | _ => None
  end.

Definition insightsRequest (query : str) : Request :=
  mkRequest (lit "GET") (lit "/api/insights") [(lit "q", query)] None.

(** Lines 584-608, [handleQuery] on the text of the input box: the filter
    afterwards, and the answer to the reload when there was one. *)
Definition handleQuery (env : Env) (input : str) (cur : Filter)
  : World -> (Filter * option (Completion Response)) * World :=
  fun w =>
    let query := trim input in
    if str_eqb query [] then ((cur, None), w)
    else
      match Worker.fetch env (insightsRequest query) w with
      | (Normal (mkResponse _ (JsonBody data)), w1) =>
          match readFilters data with
          | Some cur' =>
              if hasCard (cf_sentiment cur') then
                let '(c, w2) := loadFeedback env cur' w1 in
                ((cur', Some c), w2)
              else ((cur', None), w1)
          | None => ((cur, None), w1)
          end
      | (_, w1) => ((cur, None), w1)
      end.

End Dashboard.

(* ====================================================================== *)
(** * The specification's reading of the operations *)
(* ====================================================================== *)

(** The definitions of this module follow the wording of the specification;
    the theorems below compare them with the handlers. *)
Module Spec.

(** The capital letters among the code units: A-Z, and the accented
    capitals 192-214 and 216-222 (215 is the multiplication sign). *)
Definition capital (c : ascii) : bool :=
  let n := code c in
  ((65 <=? n) && (n <=? 90)) || ((192 <=? n) && (n <=? 214))
  || ((216 <=? n) && (n <=? 222)).

(** A string is entirely lower-case when it holds no capital letter. *)
Definition lowerCased (s : str) : Prop := Forall (fun c => capital c = false) s.

(** [d] is [c] in lower case: the small letter of a capital stands 32
    code units above it, any other code unit is kept. *)
Definition smallOf (c d : ascii) : Prop :=
  code d = if capital c then code c + 32 else code c.

(** [k] is [m] in lower case, code unit by code unit. *)
Definition lowerCaseOf (m k : str) : Prop := Forall2 smallOf m k.

(** [t] occurs in [s]. *)
Definition contains (s t : str) : Prop := exists a b, s = a ++ t ++ b.

(** Equality up to case. *)
Definition equalsIgnoreCase (a b : str) : Prop := toUpperCase a = toUpperCase b.

(** "its score is below 0.6" *)
Definition scoreBelow (o : option number) (y : number) : bool :=
  match o with Some n => JsNumber.lt n y | None => false end.

(** Section 4.1: "take the top-ranked result.  If it is absent, or its
    score is below 0.6, or its label is missing, the result is neutral.
    Otherwise, if the label (case-insensitive) equals POSITIVE, the result
    is positive; any other label maps to negative." *)
Definition normalize (out : list AiResult) : Sentiment :=
  match hd_error out with
  | None => neutral
  | Some top =>
      if scoreBelow (score top) lit_0_6 then neutral
      else
        match label top with
        | None => neutral
        | Some l =>
            if str_eqb (toUpperCase l) (toUpperCase (lit "POSITIVE"))
            then positive else negative
        end
  end.

(** The top result passes the guard of line 212: its score reaches 0.6
    and its label is a non-empty string. *)
Definition confident (top : AiResult) : Prop :=
  exists sc l,
    score top = Some sc /\ JsNumber.ge sc lit_0_6 = true /\
    label top = Some l /\ l <> [].

(** The top result fails it: the score is missing, NaN or below 0.6, or
    the label is missing or empty. *)
Definition unsure (top : AiResult) : Prop :=
  score top = None \/ score top = Some NaN \/
  scoreBelow (score top) lit_0_6 = true \/
  label top = None \/ label top = Some [].

(** The [text] field of a parsed body; a body that is not an object has
    none. *)
Definition textOf (b : json) : value :=
  match b with JObj ms => lookup (lit "text") ms | _ => None end.

(** "[text] is missing, not a string, or trims to empty" *)
Definition invalidText (v : value) : Prop :=
  match v with
  | Some (JStr s) => trim s = []
  | _ => True
  end.

(** Reading the word [w] off the head of [s], up to case. *)
Fixpoint stripWord (w s : str) : option str :=
  match w, s with
  | [], _ => Some s
  | c :: w', d :: s' =>
      if Ascii.eqb (upperChar c) (upperChar d) then stripWord w' s' else None
  | _ :: _, [] => None
  end.

(** A token ends at white space or at the end of the input. *)
Definition tokenEnd (s : str) : bool :=
  match s with [] => true | d :: _ => isSpace d end.

(** What follows the word in [/<w>\s+(.+?)(?:\s|$)/]: a greedy run of
    white space, then a lazy run of [.] captured up to a token end. *)
Definition phraseTail (s' : str) : option (option str) :=
  plusG isSpace
    (fun s1 =>
       plusL isDot
         (fun s2 =>
            if tokenEnd s2
            then Some (Some (firstn (List.length s1 - List.length s2) s1))
            else None) s1) s'.

Definition containsAny (s : str) (words : list str) : Prop :=
  exists w, In w words /\ contains s w.

Definition positiveWords : list str :=
  [lit "positive"; lit "good"; lit "great"; lit "excellent"].

Definition negativeWords : list str :=
  [lit "negative"; lit "bad"; lit "issue"; lit "problem"; lit "bug"].

(** The maximal run of characters that are not white space. *)
Fixpoint takeToken (s : str) : str :=
  match s with
  | c :: s' => if isSpace c then [] else c :: takeToken s'
  | [] => []
  end.

Fixpoint dropToken (s : str) : str :=
  match s with
  | c :: s' => if isSpace c then s else dropToken s'
  | [] => []
  end.

(** "about <phrase>" read at the head of [s]: the word, some white space,
    and then the first white-space-delimited token. *)
Definition tokenAfterHere (w s : str) : option str :=
  match stripWord w s with
  | Some (c :: r) =>
      if isSpace c then
        match takeToken (trimStart r) with
        | [] => None
        | t => Some t
        end
      else None
  | _ => None
  end.

(** The leftmost place of [s] where that reading succeeds. *)
Fixpoint tokenAfter (w s : str) : option str :=
  orElse (tokenAfterHere w s)
    match s with
    | [] => None
    | _ :: s' => tokenAfter w s'
    end.

(** Section 4.4, keyword extraction: "about <phrase>" first, else
    "with <phrase>", else the whole trimmed query when no sentiment was
    detected, else nothing; always cut to 50 characters. *)
Definition keyword (query : str) (sentiment : option Sentiment) : option str :=
  let q := toLowerCase query in
  match tokenAfter (lit "about") q with
  | Some t => Some (substring0 50 t)
  | None =>
      match tokenAfter (lit "with") q with
      | Some t => Some (substring0 50 t)
      | None =>
          match sentiment with
          | None => Some (substring0 50 (trim query))
          | Some _ => None
          end
      end
  end.

(** The last character of [s] is white space. *)
Fixpoint endsWithSpace (s : str) : bool :=
  match s with
  | [] => false
  | [c] => isSpace c
  | _ :: s' => endsWithSpace s'
  end.

(** The keyword holds none of LIKE's wildcards. *)
Definition wildcardFree (k : str) : Prop :=
  Forall (fun c => c <> "%"%char /\ c <> "_"%char) k.

(** Section 4.2, [listFiltered]: "sentiment is an exact match, keyword is
    a case-insensitive substring match on text; both filters are optional
    and composable (AND semantics)". *)
Definition matches (wanted kw : option str) (r : Row) : bool :=
  match wanted with
  | Some s => match sentiment r with
              | Some s' => str_eqb s' s
              | None => false
              end
  | None => true
  end &&
  match kw with
  | Some k => includes (toUpperCase (text r)) (toUpperCase k)
  | None => true
  end.

(** A filter parameter the handler treats as absent: [null] or empty. *)
Definition present (o : option str) : option str :=
  match o with
  | Some [] => None
  | _ => o
  end.

(** What POST /feedback writes: a text that is not blank and one of the
    three sentiment names. *)
Definition wellFormedRow (r : Row) : Prop :=
  trim (text r) <> [] /\ exists s, sentiment r = Some (sentimentName s).

(** The column holds exactly the text [s]. *)
Definition optStr_is (o : option str) (s : str) : bool :=
  match o with Some s' => str_eqb s' s | None => false end.

(** [x] is not older than [y]. *)
Definition newerFirst (x y : Row) : Prop :=
  D1Engine.str_ltb (created_at x) (created_at y) = false.

(** The count the loop of the dashboard leaves at key [s], starting from
    [d]: that of the last result whose sentiment is named [s]. *)
Fixpoint lastCount (s : str) (results : list (option str * nat)) (d : nat)
  : nat :=
  match results with
  | [] => d
  | (k, n) :: rest =>
      lastCount s rest
        (if str_eqb s (match k with Some x => x | None => lit "null" end)
         then n else d)
  end.

(** The filter of the page holds no empty string, and its keyword has at
    most 50 characters. *)
Definition tidyFilter (f : Dashboard.Filter) : Prop :=
  Dashboard.cf_sentiment f <> Some [] /\
  Dashboard.cf_keyword f <> Some [] /\
  forall k, Dashboard.cf_keyword f = Some k -> List.length k <= 50.

End Spec.

(* ====================================================================== *)
(** * Sample requests and environments *)
(* ====================================================================== *)

Module Sample.

Definition now : str := lit "2024-05-01T12:00:00.000Z".

(** A classifier that answers positive at 0.9, a D1 that runs every
    statement; the only value that is no text bound in the samples is the
    number 5. *)
Definition env : Env :=
  mkEnv (fun _ => Some [mkAiResult (Some (lit "POSITIVE"))
                                   (Some (Dyadic 8106479329266893 (-53)))])
        (fun _ => true) (fun _ => JStr (lit "5.0")) now.

(** The same with a classifier that is down. *)
Definition envAiDown : Env :=
  mkEnv (fun _ => None) (fun _ => true) (asText env) now.

(** The classifier answers, D1 rejects every statement. *)
Definition envD1Down : Env :=
  mkEnv (AI env) (fun _ => false) (asText env) now.

Definition empty : World := mkWorld [] 0 [].

Definition post (b : json) : Request :=
  mkRequest (lit "POST") (lit "/feedback") [] (Some b).

Definition get (path : String.string) (params : list (str * str)) : Request :=
  mkRequest (lit "GET") (lit path) params None.

(** [{"text": "love it"}] *)
Definition loveIt : json := JObj [(lit "text", JStr (lit "love it"))].

(** [{"text": 5}] *)
Definition textFive : json := JObj [(lit "text", JNum (ofZ 5))].

(** The row that ingesting [loveIt] into the empty table writes. *)
Definition loveItRow : Row :=
  mkRow 1 (lit "love it") JNull (Some (lit "positive")) now.

(** A table holding one row, whose text is "abc". *)
Definition abcRow : Row :=
  mkRow 1 (lit "abc") JNull (Some (lit "neutral")) now.

Definition abcWorld : World := mkWorld [abcRow] 1 [].

End Sample.

(* ====================================================================== *)
(** * Properties *)
(* ====================================================================== *)

(** ** Strings *)

Section StringFacts.

Import Spec.

Lemma str_eqb_eq (a b : str) : str_eqb a b = true <-> a = b.
Proof.
  unfold str_eqb. destruct (list_eq_dec ascii_dec a b); split; congruence.
Qed.

Lemma str_eqb_neq (a b : str) : str_eqb a b = false <-> a <> b.
Proof.
  unfold str_eqb. destruct (list_eq_dec ascii_dec a b); split; congruence.
Qed.

Lemma str_eqb_refl (a : str) : str_eqb a a = true.
Proof. now apply str_eqb_eq. Qed.

Lemma startsWith_spec (s t : str) :
  startsWith s t = true <-> exists b, s = t ++ b.
Proof.
  revert s. induction t as [|d t IH]; intros s; simpl.
  - split; eauto.
  - destruct s as [|c s].
    + split; [discriminate | intros [b Hb]; discriminate].
    + rewrite andb_true_iff, Ascii.eqb_eq, IH. split.
      * intros [-> [b ->]]. now exists b.
      * intros [b Hb]. injection Hb as -> ->. eauto.
Qed.

(** [includes] finds exactly the occurrences of [t] inside [s]. *)
Lemma includes_spec (s t : str) :
  includes s t = true <-> exists a b, s = a ++ t ++ b.
Proof.
  induction s as [|c s IH].
  - simpl. rewrite orb_false_r, startsWith_spec. split.
    + intros [b Hb]. now exists [], b.
    + intros [a [b Hab]]. destruct a; [|discriminate]. eauto.
  - cbn [includes]. rewrite orb_true_iff, startsWith_spec, IH. split.
    + intros [[b Hb] | [a [b Hab]]].
      * now exists [], b.
      * exists (c :: a), b. now rewrite Hab.
    + intros [a [b Hab]]. destruct a as [|c' a].
      * left. now exists b.
      * right. injection Hab as -> ->. eauto.
Qed.

Lemma lowerChar_idem (c : ascii) : lowerChar (lowerChar c) = lowerChar c.
Proof. destruct c as [[] [] [] [] [] [] [] []]; reflexivity. Qed.

Lemma toLowerCase_idem (s : str) : toLowerCase (toLowerCase s) = toLowerCase s.
Proof.
  unfold toLowerCase. rewrite map_map. apply map_ext, lowerChar_idem.
Qed.

Lemma capital_lowerChar (c : ascii) : capital (lowerChar c) = false.
Proof. destruct c as [[] [] [] [] [] [] [] []]; reflexivity. Qed.

Lemma smallOf_lowerChar (c : ascii) : smallOf c (lowerChar c).
Proof. destruct c as [[] [] [] [] [] [] [] []]; reflexivity. Qed.

(** [toLowerCase] leaves no capital letter. *)
Lemma lowerCased_toLowerCase (s : str) : lowerCased (toLowerCase s).
Proof.
  unfold lowerCased, toLowerCase. apply Forall_map, Forall_forall.
  intros c _. apply capital_lowerChar.
Qed.

(** [toLowerCase] replaces the capitals by their small letters and keeps
    everything else. *)
Lemma lowerCaseOf_toLowerCase (s : str) : lowerCaseOf s (toLowerCase s).
Proof.
  unfold lowerCaseOf, toLowerCase.
  induction s as [|c s IH]; cbn [map]; constructor;
    [apply smallOf_lowerChar | exact IH].
Qed.

(** A piece of the lower-cased string is the lower-cased form of a piece
    of the string. *)
Lemma toLowerCase_infix (s a k b : str) :
  toLowerCase s = a ++ k ++ b ->
  exists m, (exists a' b', s = a' ++ m ++ b') /\ toLowerCase m = k.
Proof.
  unfold toLowerCase. intros H.
  apply map_eq_app in H as (a' & r & -> & _ & H).
  apply map_eq_app in H as (m & b' & -> & Hm & _).
  exists m. split; [now exists a', b' | exact Hm].
Qed.

Lemma trimStart_suffix (s : str) : exists a, s = a ++ trimStart s.
Proof.
  induction s as [|c s [a Ha]]; simpl.
  - now exists [].
  - destruct (isSpace c).
    + exists (c :: a). simpl. now f_equal.
    + now exists [].
Qed.

Lemma trimEnd_prefix (s : str) : exists b, s = trimEnd s ++ b.
Proof.
  unfold trimEnd. destruct (trimStart_suffix (rev s)) as [a Ha].
  exists (rev a). rewrite <- rev_app_distr, <- Ha. now rewrite rev_involutive.
Qed.

(** [trim] cuts a piece out of its argument. *)
Lemma trim_infix (s : str) : exists a b, s = a ++ trim s ++ b.
Proof.
  unfold trim. destruct (trimStart_suffix s) as [a Ha].
  destruct (trimEnd_prefix (trimStart s)) as [b Hb].
  exists a, b. now rewrite <- Hb.
Qed.

Lemma substring0_prefix (n : nat) (s : str) :
  exists b, s = substring0 n s ++ b.
Proof. exists (skipn n s). unfold substring0. now rewrite firstn_skipn. Qed.

Lemma substring0_length (n : nat) (s : str) :
  List.length (substring0 n s) <= n.
Proof. unfold substring0. apply firstn_le_length. Qed.

Lemma Forall_infix {A} (P : A -> Prop) (a m b : list A) :
  Forall P (a ++ m ++ b) -> Forall P m.
Proof.
  intros H. apply Forall_app in H as [_ H]. now apply Forall_app in H as [H _].
Qed.


End StringFacts.

(** ** Numbers and the classifier adapter *)

Section ClassifierAdapter.

Import Worker Spec.

Lemma pow2_pos (e : Z) : (0 <= e -> 0 < 2 ^ e)%Z.
Proof. intros. apply Z.pow_pos_nonneg; lia. Qed.

(** Away from NaN, [>=] and [<] are complementary. *)
Lemma ge_negb_lt (x y : number) :
  x <> NaN -> y <> NaN -> JsNumber.ge x y = negb (JsNumber.lt x y).
Proof.
  intros Hx Hy.
  destruct x as [|[]|m1 e1], y as [|[]|m2 e2]; simpl; try congruence.
  now destruct (dyadic_compare m1 e1 m2 e2).
Qed.

(** A score that reaches the threshold is truthy, so the guard
    [topResult.score &&] only excludes a missing score. *)
Lemma ge_threshold_truthy (n : number) :
  JsNumber.ge n lit_0_6 = true -> JsNumber.truthy n = true.
Proof.
  destruct n as [|[]|m e]; simpl; try congruence.
  unfold dyadic_compare. intros H.
  destruct (Z.eqb_spec m 0) as [->|]; [|reflexivity].
  exfalso.
  assert (Hp : (0 < 2 ^ (-53 - Z.min e (-53)))%Z) by (apply pow2_pos; lia).
  rewrite Z.mul_0_l in H.
  destruct (Z.compare_spec 0 (5404319552844595 * 2 ^ (-53 - Z.min e (-53))));
    try discriminate; nia.
Qed.

Lemma scoreGe_truthy (o : option number) :
  scoreGe o lit_0_6 = true -> truthyScore o = true.
Proof. destruct o; simpl; [apply ge_threshold_truthy | discriminate]. Qed.

Lemma guard_confident (top : AiResult) :
  truthyScore (score top) && scoreGe (score top) lit_0_6
    && truthyStr (label top) = true <-> confident top.
Proof.
  unfold confident. rewrite !andb_true_iff. split.
  - intros [[_ Hge] Hl].
    destruct (score top) as [sc|]; [|discriminate].
    destruct (label top) as [l|]; [|discriminate].
    exists sc, l. simpl in *. repeat split; auto.
    apply negb_true_iff, str_eqb_neq in Hl. exact Hl.
  - intros (sc & l & -> & Hge & -> & Hl). simpl.
    repeat split; auto.
    + now apply ge_threshold_truthy.
    + now apply negb_true_iff, str_eqb_neq.
Qed.

Lemma unsure_not_confident (top : AiResult) : unsure top <-> ~ confident top.
Proof.
  unfold unsure, confident. split.
  - intros H (sc & l & Hs & Hge & Hl & Hne). rewrite Hs, Hl in H. simpl in H.
    destruct H as [H|[H|[H|[H|H]]]]; try congruence.
    + injection H as ->. discriminate.
    + destruct sc as [|b|m e]; [discriminate| |].
      * rewrite ge_negb_lt, H in Hge; [discriminate| |]; discriminate.
      * rewrite ge_negb_lt, H in Hge; [discriminate| |]; discriminate.
  - intros H. destruct (score top) as [sc|]; [|now left].
    destruct sc as [|b|m e]; [now right; left| |].
    + destruct (label top) as [l|]; [|tauto]. destruct l as [|c l]; [tauto|].
      destruct (JsNumber.ge (Infinity b) lit_0_6) eqn:Hge.
      * exfalso. apply H. exists (Infinity b), (c :: l). repeat split; auto.
        discriminate.
      * right; right; left. simpl.
        rewrite ge_negb_lt in Hge by discriminate.
        now apply negb_false_iff in Hge.
    + destruct (label top) as [l|]; [|tauto]. destruct l as [|c l]; [tauto|].
      destruct (JsNumber.ge (Dyadic m e) lit_0_6) eqn:Hge.
      * exfalso. apply H. exists (Dyadic m e), (c :: l). repeat split; auto.
        discriminate.
      * right; right; left. simpl.
        rewrite ge_negb_lt in Hge by discriminate.
        now apply negb_false_iff in Hge.
Qed.

Lemma confident_dec (top : AiResult) : confident top \/ ~ confident top.
Proof.
  destruct (truthyScore (score top) && scoreGe (score top) lit_0_6
            && truthyStr (label top)) eqn:G.
  - left. now apply guard_confident.
  - right. intros H. apply guard_confident in H. congruence.
Qed.

Lemma normalizeSentiment_unsure (aiResult : list AiResult) (top : AiResult) :
  hd_error aiResult = Some top -> unsure top ->
  normalizeSentiment aiResult = neutral.
Proof.
  intros Hhd Hu. unfold normalizeSentiment. rewrite Hhd.
  destruct (_ && _ && _) eqn:G; [|reflexivity].
  apply guard_confident in G. now apply unsure_not_confident in Hu.
Qed.

Lemma normalizeSentiment_confident (aiResult : list AiResult) (top : AiResult) :
  hd_error aiResult = Some top -> confident top ->
  normalizeSentiment aiResult =
    if str_eqb (toUpperCase (stringOfOpt (label top))) (lit "POSITIVE")
    then positive else negative.
Proof.
  intros Hhd Hc. unfold normalizeSentiment. rewrite Hhd.
  apply guard_confident in Hc. now rewrite Hc.
Qed.

(** C1, as amended.  The normalized sentiment is [neutral] exactly when
    the top-ranked result is absent, or its score is missing, NaN or
    below 0.6, or its label is missing or empty; it is [positive] exactly
    when the top result has a score of at least 0.6 and a non-empty label
    equal to "POSITIVE" up to case, and [negative] exactly when it has
    such a score and any other non-empty label. *)
Theorem normalizeSentiment_cases (aiResult : list AiResult) :
  (normalizeSentiment aiResult = neutral <->
     match hd_error aiResult with
     | None => True
     | Some top => unsure top
     end) /\
  (normalizeSentiment aiResult = positive <->
     exists top l,
       hd_error aiResult = Some top /\ confident top /\
       label top = Some l /\ equalsIgnoreCase l (lit "POSITIVE")) /\
  (normalizeSentiment aiResult = negative <->
     exists top l,
       hd_error aiResult = Some top /\ confident top /\
       label top = Some l /\ ~ equalsIgnoreCase l (lit "POSITIVE")).
Proof.
  unfold equalsIgnoreCase.
  change (toUpperCase (lit "POSITIVE")) with (lit "POSITIVE").
  destruct (hd_error aiResult) as [top|] eqn:Hhd.
  2:{ unfold normalizeSentiment. rewrite Hhd.
      repeat split; try discriminate; auto;
        intros (t & l & H & _); discriminate. }
  destruct (confident_dec top) as [Hc|Hn].
  - rewrite (normalizeSentiment_confident _ Hhd Hc).
    assert (Hc' := Hc). destruct Hc' as (sc & l & Hs & Hge & Hl & Hne).
    rewrite Hl. simpl stringOfOpt.
    destruct (str_eqb (toUpperCase l) (lit "POSITIVE")) eqn:E.
    + apply str_eqb_eq in E. repeat split; try discriminate.
      * intros Hu. now apply unsure_not_confident in Hu.
      * intros _. exists top, l. auto.
      * intros (t & l' & Ht & _ & Hl' & Hneq).
        injection Ht as <-. congruence.
    + apply str_eqb_neq in E. repeat split; try discriminate.
      * intros Hu. now apply unsure_not_confident in Hu.
      * intros (t & l' & Ht & _ & Hl' & Heq).
        injection Ht as <-. congruence.
      * intros _. exists top, l. auto.
  - assert (Hu : unsure top) by now apply unsure_not_confident.
    rewrite (normalizeSentiment_unsure _ Hhd Hu).
    repeat split; try discriminate; auto;
      intros (t & l & Ht & Hc & _); injection Ht as <-; contradiction.
Qed.

(** The handler and the specification's wording agree whenever the top
    result carries a score other than NaN and its label is not the empty
    string. *)
Lemma normalizeSentiment_agrees (aiResult : list AiResult) :
  (forall top, hd_error aiResult = Some top ->
     (exists sc, score top = Some sc /\ sc <> NaN) /\ label top <> Some []) ->
  normalizeSentiment aiResult = Spec.normalize aiResult.
Proof.
  intros H. unfold normalizeSentiment, Spec.normalize.
  destruct (hd_error aiResult) as [top|]; [|reflexivity].
  destruct (H top eq_refl) as [(sc & Hs & Hn) Hl]. rewrite Hs. simpl.
  change (toUpperCase (lit "POSITIVE")) with (lit "POSITIVE").
  rewrite (ge_negb_lt Hn) by discriminate.
  destruct (JsNumber.lt sc lit_0_6) eqn:L; simpl.
  - now rewrite andb_false_r.
  - assert (T : JsNumber.truthy sc = true).
    { apply ge_threshold_truthy. rewrite (ge_negb_lt Hn) by discriminate.
      now rewrite L. }
    rewrite T. simpl.
    destruct (label top) as [[|c l]|] eqn:E;
      [exfalso; now apply Hl | | reflexivity].
    cbn [truthyStr stringOfOpt].
    replace (str_eqb (c :: l) []) with false
      by (symmetry; now apply str_eqb_neq).
    reflexivity.
Qed.

(** The claim as the specification words it fails on a top result without
    a score, and on one whose label is the empty string. *)
Lemma normalizeSentiment_not_spec :
  normalizeSentiment [mkAiResult (Some (lit "POSITIVE")) None]
    <> Spec.normalize [mkAiResult (Some (lit "POSITIVE")) None] /\
  normalizeSentiment
      [mkAiResult (Some []) (Some (Dyadic 8106479329266893 (-53)))]
    <> Spec.normalize
      [mkAiResult (Some []) (Some (Dyadic 8106479329266893 (-53)))].
Proof. split; vm_compute; discriminate. Qed.

End ClassifierAdapter.

(** ** Ingestion: POST /feedback *)

Section Ingestion.

Import Worker Spec.

Variable env : Env.

Lemma trim_nil : trim [] = [].
Proof. reflexivity. Qed.

Lemma fetch_post (req : Request) :
  route req "/feedback" "POST" = true -> fetch env req = postFeedback env req.
Proof. unfold fetch. now intros ->. Qed.

(** What the handler does once the body carries a usable text. *)
Lemma postFeedback_run (req : Request) (w : World)
      (ms : list (str * json)) (s : str) :
  payload req = Some (JObj ms) ->
  lookup (lit "text") ms = Some (JStr s) ->
  trim s <> [] ->
  postFeedback env req w =
    let failed := errorResponse 500 "Failed to store feedback" in
    match AI env s with
    | None => (Normal failed, mkWorld (rows w) (seq w) (calls w ++ [CallAI s]))
    | Some aiResult =>
        let src := nullish (lookup (lit "source") ms) JNull in
        let sent := sentimentName (normalizeSentiment aiResult) in
        let stmt := Insert s src sent (clock env) in
        let log := (calls w ++ [CallAI s]) ++ [CallD1 stmt] in
        if D1 env stmt
        then (Normal successResponse,
              mkWorld (rows w ++ [mkRow (seq w + 1) s
                                        (D1Engine.textColumn env src)
                                        (Some sent) (clock env)])
                      (seq w + 1) log)
        else (Normal failed, mkWorld (rows w) (seq w) log)
    end.
Proof.
  intros Hp Ht Hs. unfold postFeedback. rewrite Hp.
  assert (Hne : s <> []) by (intros ->; now apply Hs).
  unfold bind at 1. cbn [member]. unfold ret at 1. rewrite Ht.
  unfold bind at 1. cbn [toBoolean].
  apply str_eqb_neq in Hne. rewrite Hne. cbn [negb].
  unfold bind at 1. cbn [callTrim]. unfold ret at 1 2.
  apply str_eqb_neq in Hs. rewrite Hs.
  unfold tryCatch, AI_run, D1_run, bind, logCall, ret, throw. cbn [stringOf].
  destruct (AI env s) as [aiResult|]; cbn; [|reflexivity].
  now destruct (D1 env _).
Qed.

(** Whatever is wrong with the text, nothing external happens: the
    classifier is not called, no statement reaches D1 and the table is
    as it was. *)
Lemma postFeedback_invalid_untouched (req : Request) (w : World) (b : json) :
  payload req = Some b -> invalidText (textOf b) ->
  snd (postFeedback env req w) = w.
Proof.
  intros Hp Hi. unfold postFeedback. rewrite Hp.
  destruct b as [| | | |l|ms]; try reflexivity.
  unfold bind at 1. cbn [member]. unfold ret at 1.
  cbn [textOf] in Hi.
  destruct (lookup (lit "text") ms) as [[| [] |n|s| |]|]; try reflexivity.
  - unfold bind at 1. cbn [toBoolean]. destruct (JsNumber.truthy n); reflexivity.
  - cbn [invalidText] in Hi. unfold bind at 1. cbn [toBoolean].
    destruct (str_eqb s []); cbn [negb]; [reflexivity|].
    unfold bind at 1. cbn [callTrim]. unfold ret at 1 2.
    apply str_eqb_eq in Hi. now rewrite Hi.
Qed.

(** A text that is missing, falsy, or a string of white space is
    answered with 400. *)
Lemma postFeedback_rejects_blank (req : Request) (w : World) (b : json) :
  payload req = Some b -> b <> JNull ->
  toBoolean (textOf b) = false \/
  (exists s, textOf b = Some (JStr s) /\ trim s = []) ->
  postFeedback env req w =
    (Normal (errorResponse 400 "Missing or empty text field"), w).
Proof.
  intros Hp Hb Hi. unfold postFeedback. rewrite Hp.
  assert (Hm : member b (lit "text") w = (Normal (textOf b), w))
    by (destruct b; try reflexivity; congruence).
  unfold bind at 1. rewrite Hm.
  destruct Hi as [Hf | (s & Hs & Ht)].
  - unfold bind at 1. now rewrite Hf.
  - rewrite Hs. unfold bind at 1. cbn [toBoolean].
    destruct (str_eqb s []); cbn [negb]; [reflexivity|].
    unfold bind at 1. cbn [callTrim]. unfold ret at 1 2.
    apply str_eqb_eq in Ht. now rewrite Ht.
Qed.

End Ingestion.

Section PrototypeIngestion.

Import Worker Spec.

(** The prototype answers every unusable text with 400 and leaves
    [feedbackStore] alone. *)
Lemma prototype_rejects_invalid (now : str) (req : Request)
      (store : Prototype.feedbackStore) (b : json) :
  route req "/feedback" "POST" = true ->
  payload req = Some b -> invalidText (textOf b) ->
  status (fst (Prototype.fetch now req store)) = 400 /\
  snd (Prototype.fetch now req store) = store.
Proof.
  intros Hr Hp Hi. unfold Prototype.fetch, Prototype.tryPost.
  rewrite Hr, Hp.
  destruct b as [| | | |l|ms]; try (split; reflexivity).
  cbn [textOf] in Hi.
  destruct (lookup (lit "text") ms) as [[| [] |n|s| |]|]; cbn [toBoolean isString negb orb];
    try (split; reflexivity).
  - rewrite orb_true_r. split; reflexivity.
  - cbn [invalidText] in Hi. cbn [stringOf]. rewrite Hi.
    rewrite orb_true_r. split; reflexivity.
Qed.

End PrototypeIngestion.

(** ** The claims on ingestion *)

Section IngestionClaims.

Import Worker Spec.

(** C2.  A body whose [text] is the number 5 is not a string and must be
    answered with 400; the D1 handler calls [trim] on it outside any
    [try] block and the request ends in an uncaught TypeError, while the
    prototype, which tests [typeof body.text], answers 400.  Neither
    touches the store. *)
Theorem nonstring_text_uncaught (env : Env) (w : World) :
  fetch env (Sample.post Sample.textFive) w = (Throw TypeError, w) /\
  forall now store,
    Prototype.fetch now (Sample.post Sample.textFive) store =
      (errorResponse 400 "Missing or empty text field", store).
Proof. split; reflexivity. Qed.

(** C5.  When the classifier call fails on the submitted text, the
    answer is the 500 error, the table and its counter are unchanged, and
    the only external call made is the classifier call: no statement is
    sent to D1, so no record, neutral or other, is written. *)
Theorem classifier_failure_writes_nothing
        (env : Env) (req : Request) (w : World)
        (ms : list (str * json)) (s : str) :
  route req "/feedback" "POST" = true ->
  payload req = Some (JObj ms) ->
  lookup (lit "text") ms = Some (JStr s) ->
  trim s <> [] ->
  AI env s = None ->
  fetch env req w =
    (Normal (errorResponse 500 "Failed to store feedback"),
     mkWorld (rows w) (seq w) (calls w ++ [CallAI s])).
Proof.
  intros Hr Hp Ht Hs Hai.
  rewrite (fetch_post env req Hr), (postFeedback_run env req w Hp Ht Hs).
  now rewrite Hai.
Qed.

Lemma classifier_failure_writes_nothing_witness :
  fetch Sample.envAiDown (Sample.post Sample.loveIt) Sample.empty =
    (Normal (errorResponse 500 "Failed to store feedback"),
     mkWorld [] 0 [CallAI (lit "love it")]).
Proof.
  apply (@classifier_failure_writes_nothing
           Sample.envAiDown (Sample.post Sample.loveIt) Sample.empty
           [(lit "text", JStr (lit "love it"))] (lit "love it"));
    [reflexivity | reflexivity | reflexivity | discriminate | reflexivity].
Defined.

(** C7, as amended.  When the request omits [source], a successful
    ingestion by the D1 handler appends a row whose [source] is NULL;
    the prototype stores the string "unknown". *)
Theorem omitted_source_persisted
        (env : Env) (req : Request) (w : World)
        (ms : list (str * json)) (s : str) :
  route req "/feedback" "POST" = true ->
  payload req = Some (JObj ms) ->
  lookup (lit "text") ms = Some (JStr s) ->
  trim s <> [] ->
  lookup (lit "source") ms = None ->
  (forall w', fetch env req w = (Normal successResponse, w') ->
     exists r, rows w' = rows w ++ [r] /\ text r = s /\ source r = JNull) /\
  (forall now store,
     Prototype.fetch now req store =
       (successResponse, store ++ [Prototype.mkEntry s (JStr (lit "unknown")) now])).
Proof.
  intros Hr Hp Ht Hs Hsrc. split.
  - intros w'.
    rewrite (fetch_post env req Hr), (postFeedback_run env req w Hp Ht Hs).
    rewrite Hsrc. cbn [nullish].
    destruct (AI env s) as [aiResult|]; cbn zeta; [|discriminate].
    destruct (D1 env _); [|discriminate].
    intros H. injection H as <-. eexists. cbn [rows]. split; [reflexivity|].
    split; reflexivity.
  - intros now store. unfold Prototype.fetch, Prototype.tryPost.
    rewrite Hr, Hp, Ht, Hsrc. cbn [toBoolean isString stringOf negb orb nullish].
    assert (Hne : s <> []) by (intros ->; now apply Hs).
    apply str_eqb_neq in Hne. rewrite Hne. cbn [negb orb].
    destruct (trim s) as [|c t] eqn:E; [congruence|]. reflexivity.
Qed.

Lemma omitted_source_persisted_witness :
  (forall w',
     fetch Sample.env (Sample.post Sample.loveIt) Sample.empty =
       (Normal successResponse, w') ->
     exists r, rows w' = rows Sample.empty ++ [r] /\
               text r = lit "love it" /\ source r = JNull) /\
  (forall now store,
     Prototype.fetch now (Sample.post Sample.loveIt) store =
       (successResponse,
        store ++ [Prototype.mkEntry (lit "love it") (JStr (lit "unknown")) now])).
Proof.
  apply (@omitted_source_persisted
           Sample.env (Sample.post Sample.loveIt) Sample.empty
           [(lit "text", JStr (lit "love it"))] (lit "love it"));
    [reflexivity | reflexivity | reflexivity | discriminate | reflexivity].
Defined.

(** The row the D1 handler writes for a request without [source] does
    not carry "unknown". *)
Lemma omitted_source_is_null :
  rows (snd (fetch Sample.env (Sample.post Sample.loveIt) Sample.empty))
    = [Sample.loveItRow] /\
  source Sample.loveItRow <> JStr (lit "unknown").
Proof. split; [reflexivity | discriminate]. Qed.

(** C8, as amended.  A successful ingestion answers 200 with the
    acknowledgement [{"success": true}]; the constructed record (text,
    source as the TEXT column keeps the bound value, NULL when it is
    omitted, normalized sentiment, creation time and the next
    AUTOINCREMENT id) is appended to the table and is not part of the
    answer. *)
Theorem successful_ingestion
        (env : Env) (req : Request) (w : World)
        (ms : list (str * json)) (s : str) (aiResult : list AiResult) :
  route req "/feedback" "POST" = true ->
  payload req = Some (JObj ms) ->
  lookup (lit "text") ms = Some (JStr s) ->
  trim s <> [] ->
  AI env s = Some aiResult ->
  let src := nullish (lookup (lit "source") ms) JNull in
  let sent := sentimentName (normalizeSentiment aiResult) in
  let stmt := Insert s src sent (clock env) in
  D1 env stmt = true ->
  fetch env req w =
    (Normal (mkResponse 200 (JsonBody (JObj [(lit "success", JBool true)]))),
     mkWorld (rows w ++ [mkRow (seq w + 1) s (D1Engine.textColumn env src)
                               (Some sent) (clock env)])
             (seq w + 1)
             (calls w ++ [CallAI s; CallD1 stmt])).
Proof.
  intros Hr Hp Ht Hs Hai src sent stmt Hd.
  rewrite (fetch_post env req Hr), (postFeedback_run env req w Hp Ht Hs).
  rewrite Hai. cbn zeta. fold src sent stmt. rewrite Hd.
  now rewrite <- app_assoc.
Qed.

Lemma successful_ingestion_witness :
  fetch Sample.env (Sample.post Sample.loveIt) Sample.empty =
    (Normal (mkResponse 200 (JsonBody (JObj [(lit "success", JBool true)]))),
     mkWorld [Sample.loveItRow] 1
             [CallAI (lit "love it");
              CallD1 (Insert (lit "love it") JNull (lit "positive") Sample.now)]).
Proof.
  apply (@successful_ingestion
           Sample.env (Sample.post Sample.loveIt) Sample.empty
           [(lit "text", JStr (lit "love it"))] (lit "love it")
           [mkAiResult (Some (lit "POSITIVE"))
                       (Some (Dyadic 8106479329266893 (-53)))]);
    [reflexivity | reflexivity | reflexivity | discriminate
     | reflexivity | reflexivity].
Defined.

(** The answer to a successful ingestion is not the record: it has
    none of the record's fields. *)
Lemma success_response_is_not_the_record :
  fst (fetch Sample.env (Sample.post Sample.loveIt) Sample.empty)
    = Normal successResponse /\
  rows (snd (fetch Sample.env (Sample.post Sample.loveIt) Sample.empty))
    = [Sample.loveItRow] /\
  body successResponse <> JsonBody (rowJson Sample.loveItRow) /\
  (forall k, In k [lit "id"; lit "text"; lit "source"; lit "sentiment";
                   lit "created_at"] ->
             lookup k [(lit "success", JBool true)] = None).
Proof.
  split; [reflexivity|]. split; [reflexivity|]. split; [discriminate|].
  intros k Hk. simpl in Hk.
  repeat (destruct Hk as [<-|Hk]; [reflexivity|]). contradiction.
Qed.

(** A text that is one no-break space trims to the empty string: both
    handlers answer 400 and nothing is called. *)
Example no_break_space_is_blank :
  let body := JObj [(lit "text", JStr [ascii_of_nat 160])] in
  fetch Sample.env (Sample.post body) Sample.empty =
    (Normal (errorResponse 400 "Missing or empty text field"), Sample.empty) /\
  forall now store,
    Prototype.fetch now (Sample.post body) store =
      (errorResponse 400 "Missing or empty text field", store).
Proof. split; reflexivity. Qed.

(** A source that is the number 5 is bound as that number and kept by
    the TEXT column as the text the engine makes of it. *)
Example numeric_source_is_stored_as_text :
  let body := JObj [(lit "text", JStr (lit "love it"));
                    (lit "source", JNum (ofZ 5))] in
  fetch Sample.env (Sample.post body) Sample.empty =
    (Normal successResponse,
     mkWorld [mkRow 1 (lit "love it") (JStr (lit "5.0"))
                    (Some (lit "positive")) Sample.now] 1
             [CallAI (lit "love it");
              CallD1 (Insert (lit "love it") (JNum (ofZ 5)) (lit "positive")
                             Sample.now)]).
Proof. reflexivity. Qed.

End IngestionClaims.

(** ** The regular expressions *)

Section RegExpFacts.

Import Spec.

Lemma plusG_ext {A} (p : ascii -> bool) (k k' : str -> option A) (s : str) :
  (forall x, k x = k' x) -> plusG p k s = plusG p k' s.
Proof.
  intros H. induction s as [|c s IH]; simpl; [reflexivity|].
  now rewrite IH, H.
Qed.

Lemma plusL_ext {A} (p : ascii -> bool) (k k' : str -> option A) (s : str) :
  (forall x, k x = k' x) -> plusL p k s = plusL p k' s.
Proof.
  intros H. induction s as [|c s IH]; simpl; [reflexivity|].
  now rewrite IH, H.
Qed.

(** A successful iteration hands a proper suffix to the continuation. *)
Lemma plusG_inv {A} (p : ascii -> bool) (k : str -> option A) (s : str) (a : A) :
  plusG p k s = Some a ->
  exists pre s1, s = pre ++ s1 /\ pre <> [] /\ k s1 = Some a.
Proof.
  induction s as [|c s IH]; simpl; [discriminate|].
  destruct (p c); [|discriminate].
  destruct (plusG p k s) as [a'|] eqn:E; simpl.
  - intros H. injection H as ->.
    destruct (IH eq_refl) as (pre & s1 & -> & _ & Hk).
    exists (c :: pre), s1. repeat split; auto. discriminate.
  - intros H. exists [c], s. repeat split; auto. discriminate.
Qed.

Lemma plusL_inv {A} (p : ascii -> bool) (k : str -> option A) (s : str) (a : A) :
  plusL p k s = Some a ->
  exists pre s1, s = pre ++ s1 /\ pre <> [] /\ k s1 = Some a.
Proof.
  induction s as [|c s IH]; simpl; [discriminate|].
  destruct (p c); [|discriminate].
  destruct (k s) as [a'|] eqn:E; simpl.
  - intros H. injection H as ->.
    exists [c], s. repeat split; auto. discriminate.
  - intros H. destruct (IH H) as (pre & s1 & -> & _ & Hk).
    exists (c :: pre), s1. repeat split; auto. discriminate.
Qed.

Lemma stripWord_suffix (w s s' : str) :
  stripWord w s = Some s' -> exists pre, s = pre ++ s'.
Proof.
  revert s. induction w as [|c w IH]; intros s; simpl.
  - intros H. injection H as ->. now exists [].
  - destruct s as [|d s]; [discriminate|].
    destruct (Ascii.eqb _ _); [|discriminate].
    intros H. destruct (IH _ H) as [pre ->]. now exists (d :: pre).
Qed.

Lemma m_word {A} (w : str) (r : re) (k : cont A) (s : str) (cap : option str) :
  m (word w r) k s cap =
    match stripWord w s with
    | Some s' => m r k s' cap
    | None => None
    end.
Proof.
  revert s. induction w as [|c w IH]; intros s; [reflexivity|].
  cbn [word m stripWord]. destruct s as [|d s]; [reflexivity|].
  destruct (Ascii.eqb _ _); [apply IH | reflexivity].
Qed.

Lemma matchHere_phraseAfter (w s : str) :
  matchHere (phraseAfter w) s =
    match stripWord w s with
    | Some s' => phraseTail s'
    | None => None
    end.
Proof.
  unfold matchHere, phraseAfter. rewrite m_word.
  destruct (stripWord w s) as [s'|]; [|reflexivity].
  cbn [m]. unfold phraseTail. apply plusG_ext. intros s1.
  apply plusL_ext. intros s2. destruct s2 as [|d s2]; cbn [tokenEnd orElse].
  - reflexivity.
  - destruct (isSpace d); reflexivity.
Qed.

(** A match of the phrase pattern always sets group 1, to a non-empty
    piece of the input. *)
Lemma phraseTail_capture (s' : str) (mt : option str) :
  phraseTail s' = Some mt ->
  exists c a b, mt = Some c /\ c <> [] /\ s' = a ++ c ++ b.
Proof.
  unfold phraseTail. intros H.
  apply plusG_inv in H as (pre & s1 & -> & _ & H).
  apply plusL_inv in H as (pre2 & s2 & -> & Hne & H).
  destruct (tokenEnd s2); [|discriminate]. injection H as <-.
  exists pre2, pre, s2. split; [|split; [exact Hne|reflexivity]].
  f_equal. rewrite length_app.
  replace (List.length pre2 + List.length s2 - List.length s2)
    with (List.length pre2 + 0) by lia.
  now rewrite firstn_app_2, app_nil_r.
Qed.

Lemma exec_phraseAfter_capture (w s : str) (mt : option str) :
  exec (phraseAfter w) s = Some mt ->
  exists c a b, mt = Some c /\ c <> [] /\ s = a ++ c ++ b.
Proof.
  induction s as [|d s IH]; cbn [exec]; rewrite matchHere_phraseAfter.
  - destruct (stripWord w []) as [s'|] eqn:E; [|discriminate].
    destruct (phraseTail s') as [x|] eqn:P; [|discriminate].
    cbn [orElse]. intros H. injection H as <-.
    apply stripWord_suffix in E as [pre E].
    apply phraseTail_capture in P as (c & a & b & -> & Hne & ->).
    exists c, (pre ++ a), b. rewrite <- app_assoc. auto.
  - destruct (stripWord w (d :: s)) as [s'|] eqn:E.
    + destruct (phraseTail s') as [x|] eqn:P; cbn [orElse].
      * intros H. injection H as <-.
        apply stripWord_suffix in E as [pre E].
        apply phraseTail_capture in P as (c & a & b & -> & Hne & ->).
        exists c, (pre ++ a), b. rewrite <- app_assoc. auto.
      * intros H. destruct (IH H) as (c & a & b & -> & Hne & ->).
        exists c, (d :: a), b. auto.
    + cbn [orElse]. intros H. destruct (IH H) as (c & a & b & -> & Hne & ->).
      exists c, (d :: a), b. auto.
Qed.

End RegExpFacts.


(** ** The query interpreter *)

Section Interpreter.

Import Worker Spec.

Lemma anyIncludes_spec (s : str) (words : list str) :
  anyIncludes s words = true <-> containsAny s words.
Proof.
  unfold anyIncludes, containsAny. rewrite existsb_exists.
  split; intros (w & Hin & H); exists w; split; auto; now apply includes_spec.
Qed.

Lemma anyIncludes_false (s : str) (words : list str) :
  anyIncludes s words = false <-> ~ containsAny s words.
Proof.
  rewrite <- anyIncludes_spec. destruct (anyIncludes s words); split; congruence.
Qed.

(** The interpreter never throws, and its keyword is one of three. *)
Lemma interpret_normal (query : str) :
  exists kw,
    interpret query =
      Normal (mkFilters (detectSentiment (toLowerCase query)) kw) /\
    match exec aboutRe (toLowerCase query) with
    | Some mt =>
        exists c a b, mt = Some c /\ toLowerCase query = a ++ c ++ b /\
                      kw = Some (substring0 50 (trim c))
    | None =>
        match exec withRe (toLowerCase query) with
        | Some mt =>
            exists c a b, mt = Some c /\ toLowerCase query = a ++ c ++ b /\
                          kw = Some (substring0 50 (trim c))
        | None =>
            kw = match detectSentiment (toLowerCase query) with
                 | None => Some (substring0 50 (trim query))
                 | Some _ => None
                 end
        end
    end.
Proof.
  unfold interpret.
  destruct (exec aboutRe (toLowerCase query)) as [mt|] eqn:Ea.
  - apply exec_phraseAfter_capture in Ea as (c & a & b & -> & _ & Hq).
    eexists. split; [reflexivity|]. exists c, a, b. auto.
  - destruct (exec withRe (toLowerCase query)) as [mt|] eqn:Ew.
    + apply exec_phraseAfter_capture in Ew as (c & a & b & -> & _ & Hq).
      eexists. split; [reflexivity|]. exists c, a, b. auto.
    + destruct (detectSentiment (toLowerCase query));
        eexists; split; reflexivity.
Qed.

(** C4.  The interpreter always answers, and the sentiment of its answer
    follows the fixed priority: positive when the lower-cased query
    contains "positive", "good", "great" or "excellent"; else negative when
    it contains "negative", "bad", "issue", "problem" or "bug"; else neutral
    when it contains "neutral"; else unset. *)
Theorem interpret_sentiment_priority (query : str) :
  exists f,
    interpret query = Normal f /\
    let q := toLowerCase query in
    (containsAny q positiveWords -> f_sentiment f = Some positive) /\
    (~ containsAny q positiveWords -> containsAny q negativeWords ->
       f_sentiment f = Some negative) /\
    (~ containsAny q positiveWords -> ~ containsAny q negativeWords ->
       contains q (lit "neutral") -> f_sentiment f = Some neutral) /\
    (~ containsAny q positiveWords -> ~ containsAny q negativeWords ->
       ~ contains q (lit "neutral") -> f_sentiment f = None).
Proof.
  destruct (interpret_normal query) as (kw & -> & _).
  eexists. split; [reflexivity|]. cbn [f_sentiment].
  unfold detectSentiment. fold positiveWords negativeWords.
  set (q := toLowerCase query).
  destruct (anyIncludes q positiveWords) eqn:P.
  { apply anyIncludes_spec in P. repeat split; tauto. }
  apply anyIncludes_false in P.
  destruct (anyIncludes q negativeWords) eqn:N.
  { apply anyIncludes_spec in N. repeat split; tauto. }
  apply anyIncludes_false in N.
  destruct (includes q (lit "neutral")) eqn:U.
  - apply includes_spec in U. repeat split; tauto.
  - assert (~ contains q (lit "neutral")).
    { intros H. apply includes_spec in H. congruence. }
    repeat split; tauto.
Qed.

Lemma contains_trans (s t u : str) : contains s t -> contains t u -> contains s u.
Proof.
  intros (a & b & ->) (a' & b' & ->). exists (a ++ a'), (b' ++ b).
  now rewrite <- !app_assoc.
Qed.

Lemma contains_trim (s : str) : contains s (trim s).
Proof. destruct (trim_infix s) as (a & b & H). now exists a, b. Qed.

Lemma contains_substring0 (n : nat) (s : str) : contains s (substring0 n s).
Proof. destruct (substring0_prefix n s) as [b H]. now exists [], b. Qed.

(** C10.  A keyword produced by the "about" or "with" rule is entirely
    lower-case: it holds no capital letter, and it is a piece of the
    query as submitted with every capital replaced by its small letter.
    The fallback keyword is cut out of the query as submitted, with its
    casing. *)
Theorem interpret_keyword_casing (query : str) :
  exists f,
    interpret query = Normal f /\
    let q := toLowerCase query in
    ((exec aboutRe q <> None \/ exec withRe q <> None) ->
       exists k, f_keyword f = Some k /\ lowerCased k /\
                 exists m, contains query m /\ lowerCaseOf m k) /\
    (exec aboutRe q = None -> exec withRe q = None -> f_sentiment f = None ->
       f_keyword f = Some (substring0 50 (trim query)) /\
       contains query (substring0 50 (trim query))).
Proof.
  destruct (interpret_normal query) as (kw & -> & Hkw).
  eexists. split; [reflexivity|]. cbn [f_sentiment f_keyword].
  assert (Hlow : forall c a b,
             toLowerCase query = a ++ c ++ b ->
             lowerCased (substring0 50 (trim c)) /\
             exists m, contains query m /\
                       lowerCaseOf m (substring0 50 (trim c))).
  { intros c a b Hq.
    assert (Hk : contains (toLowerCase query) (substring0 50 (trim c))).
    { apply contains_trans with c; [now exists a, b|].
      apply contains_trans with (trim c);
        [apply contains_trim | apply contains_substring0]. }
    destruct Hk as (a0 & b0 & Hk).
    destruct (toLowerCase_infix _ _ _ _ Hk) as (m & Hm & <-).
    split; [apply lowerCased_toLowerCase|].
    exists m. split; [exact Hm | apply lowerCaseOf_toLowerCase]. }
  split.
  - intros Hm.
    destruct (exec aboutRe (toLowerCase query)) as [mt|].
    + destruct Hkw as (c & a & b & _ & Hq & ->).
      eexists. split; [reflexivity|]. eapply Hlow; eauto.
    + destruct (exec withRe (toLowerCase query)) as [mt|]; [|tauto].
      destruct Hkw as (c & a & b & _ & Hq & ->).
      eexists. split; [reflexivity|]. eapply Hlow; eauto.
  - intros Ha Hw Hs. rewrite Ha, Hw, Hs in Hkw. split; [exact Hkw|].
    apply contains_trans with (trim query);
      [apply contains_trim | apply contains_substring0].
Qed.

(** The fallback keyword keeps capital letters, the "about" keyword does
    not, accented capitals included (201 is E acute, 233 its small
    letter). *)
Example fallback_keeps_case :
  interpret (lit "Slow Loading Times") =
    Normal (mkFilters None (Some (lit "Slow Loading Times"))) /\
  interpret (lit "Tell me About Billing") =
    Normal (mkFilters None (Some (lit "billing"))) /\
  interpret (lit "about " ++ [ascii_of_nat 201] ++ lit "COLE") =
    Normal (mkFilters None (Some (ascii_of_nat 233 :: lit "cole"))).
Proof. repeat split; reflexivity. Qed.

(** C9, as amended.  Every keyword the interpreter produces has at most
    50 characters.  A non-empty keyword given as the client parameter of
    GET /api/feedback is bound into the LIKE pattern as it is, whatever
    its length. *)
Theorem keyword_length_cap :
  (forall query,
     exists f, interpret query = Normal f /\
               forall k, f_keyword f = Some k -> List.length k <= 50) /\
  (forall sentiment k,
     k <> [] ->
     exists conds,
       buildConds sentiment (Some k) =
         conds ++ [TextLike (lit "%" ++ k ++ lit "%")]).
Proof.
  split.
  - intros query. destruct (interpret_normal query) as (kw & -> & Hkw).
    eexists. split; [reflexivity|]. cbn [f_keyword]. intros k ->.
    destruct (exec aboutRe (toLowerCase query)) as [mt|].
    { destruct Hkw as (c & a & b & _ & _ & H).
      replace k with (substring0 50 (trim c)) by congruence.
      apply substring0_length. }
    destruct (exec withRe (toLowerCase query)) as [mt|].
    { destruct Hkw as (c & a & b & _ & _ & H).
      replace k with (substring0 50 (trim c)) by congruence.
      apply substring0_length. }
    destruct (detectSentiment (toLowerCase query)); [discriminate|].
    replace k with (substring0 50 (trim query)) by congruence.
    apply substring0_length.
  - intros sentiment k Hk. unfold buildConds. cbn [truthyStr stringOfOpt].
    apply str_eqb_neq in Hk. rewrite Hk. cbn [negb]. eauto.
Qed.

(** A keyword of 51 characters given to GET /api/feedback reaches D1
    whole. *)
Lemma direct_keyword_uncapped :
  let k := repeat "a"%char 51 in
  List.length k = 51 /\
  fetch Sample.env (Sample.get "/api/feedback" [(lit "keyword", k)]) Sample.empty =
    (Normal (feedbackResponse []),
     mkWorld [] 0 [CallD1 (Select [TextLike (lit "%" ++ k ++ lit "%")] 50)]).
Proof. split; reflexivity. Qed.

(** C3.  The query "about" followed by two spaces holds no phrase, so its
    keyword should be the whole trimmed query, "about"; the pattern
    [/about\s+(.+?)(?:\s|$)/] lets [.] match the second space, and the
    keyword is set to the empty string. *)
Theorem about_trailing_spaces :
  interpret (lit "about  ") = Normal (mkFilters None (Some [])) /\
  Spec.keyword (lit "about  ") None = Some (lit "about") /\
  exec aboutRe (lit "about  ") = Some (Some (lit " ")).
Proof. repeat split; reflexivity. Qed.

End Interpreter.


(** ** Filtered retrieval: GET /api/feedback *)

Section Retrieval.

Import Worker Spec D1Engine.

Lemma like_percent (p t : str) :
  like ("%"%char :: p) t =
    like p t || match t with [] => false | _ :: t' => like ("%"%char :: p) t' end.
Proof. destruct t; reflexivity. Qed.

Lemma like_percent_end (t : str) : like (lit "%") t = true.
Proof.
  induction t as [|c t IH]; [reflexivity|].
  change (lit "%") with ["%"%char] in *. rewrite like_percent, IH.
  apply orb_true_r.
Qed.

(** A pattern that opens with wildcard-free text reads that text off the
    head of the input, up to case. *)
Lemma like_literal (k p t : str) :
  wildcardFree k ->
  like (k ++ p) t =
    match stripWord k t with
    | Some t' => like p t'
    | None => false
    end.
Proof.
  intros Hk. revert t. induction Hk as [|c k [Hc1 Hc2] Hk IH]; intros t.
  - reflexivity.
  - cbn [app like stripWord].
    apply Ascii.eqb_neq in Hc1, Hc2. rewrite Hc1, Hc2.
    destruct t as [|d t]; [reflexivity|].
    destruct (Ascii.eqb (upperChar c) (upperChar d)); [apply IH | reflexivity].
Qed.

Lemma stripWord_startsWith (k t : str) :
  startsWith (toUpperCase t) (toUpperCase k) =
    match stripWord k t with Some _ => true | None => false end.
Proof.
  revert t. induction k as [|c k IH]; intros t; [reflexivity|].
  destruct t as [|d t]; [reflexivity|].
  cbn [toUpperCase map startsWith stripWord].
  rewrite (Ascii.eqb_sym (upperChar d)).
  destruct (Ascii.eqb (upperChar c) (upperChar d)); [apply IH | reflexivity].
Qed.

(** For a keyword without wildcards, [text LIKE '%keyword%'] is the
    case-insensitive substring test. *)
Lemma like_includes (k t : str) :
  wildcardFree k ->
  like (lit "%" ++ k ++ lit "%") t = includes (toUpperCase t) (toUpperCase k).
Proof.
  intros Hk. change (lit "%" ++ k ++ lit "%") with ("%"%char :: k ++ lit "%").
  induction t as [|d t IH].
  - rewrite like_percent, like_literal by assumption.
    change (includes (toUpperCase []) (toUpperCase k))
      with (startsWith (toUpperCase []) (toUpperCase k) || false).
    rewrite stripWord_startsWith.
    destruct (stripWord k []); [now rewrite like_percent_end | reflexivity].
  - rewrite like_percent, IH, like_literal by assumption.
    change (includes (toUpperCase (d :: t)) (toUpperCase k))
      with (startsWith (toUpperCase (d :: t)) (toUpperCase k)
            || includes (toUpperCase t) (toUpperCase k)).
    rewrite stripWord_startsWith.
    destruct (stripWord k (d :: t)); [now rewrite like_percent_end | reflexivity].
Qed.

Lemma insertDesc_perm (r : Row) (l : list Row) :
  Permutation (insertDesc r l) (r :: l).
Proof.
  induction l as [|x l IH]; simpl; [reflexivity|].
  destruct (str_ltb _ _); [|reflexivity].
  rewrite IH. apply perm_swap.
Qed.

(** ORDER BY rearranges the rows and drops none. *)
Lemma orderDesc_perm (l : list Row) : Permutation (orderDesc l) l.
Proof.
  induction l as [|x l IH]; simpl; [reflexivity|].
  now rewrite insertDesc_perm, IH.
Qed.

(** The WHERE clause the handler builds selects the rows that match the
    filter, when the keyword has no wildcard. *)
Lemma buildConds_matches (sentiment keyword : option str) (r : Row) :
  wildcardFree (stringOfOpt keyword) ->
  forallb (holds r) (buildConds sentiment keyword) =
    matches (present sentiment) (present keyword) r.
Proof.
  intros Hk. unfold buildConds, matches.
  rewrite forallb_app. f_equal.
  - destruct sentiment as [[|c s]|]; try reflexivity.
    cbn [truthyStr stringOfOpt present].
    replace (str_eqb (c :: s) []) with false
      by (symmetry; now apply str_eqb_neq).
    cbn [negb forallb holds]. apply andb_true_r.
  - destruct keyword as [[|c k]|]; try reflexivity.
    cbn [truthyStr stringOfOpt present forallb holds].
    replace (str_eqb (c :: k) []) with false
      by (symmetry; now apply str_eqb_neq).
    cbn [negb forallb holds]. rewrite andb_true_r. now apply like_includes.
Qed.

(** Filtered retrieval, for keywords without wildcards: the answer holds
    only rows of the table that match the filter, newest first, and all of
    them when there are at most 50. *)
Lemma select_matches (sentiment keyword : option str) (table : list Row) :
  wildcardFree (stringOfOpt keyword) ->
  let hit := matches (present sentiment) (present keyword) in
  select (buildConds sentiment keyword) 50 table =
    firstn 50 (orderDesc (filter hit table)) /\
  (forall r, In r (select (buildConds sentiment keyword) 50 table) ->
             In r table /\ hit r = true) /\
  (List.length (filter hit table) <= 50 ->
   forall r, In r table -> hit r = true ->
             In r (select (buildConds sentiment keyword) 50 table)).
Proof.
  intros Hk hit. unfold select.
  assert (E : filter (fun r => forallb (holds r) (buildConds sentiment keyword)) table
              = filter hit table).
  { apply filter_ext. intros r. now apply buildConds_matches. }
  rewrite E. split; [reflexivity|]. split.
  - intros r Hin.
    assert (Hin' : In r (orderDesc (filter hit table))).
    { rewrite <- (firstn_skipn 50 (orderDesc (filter hit table))).
      apply in_or_app. now left. }
    apply (Permutation_in _ (orderDesc_perm _)) in Hin'.
    now apply filter_In in Hin'.
  - intros Hlen r Hin Hhit.
    rewrite firstn_all2.
    + apply (Permutation_in _ (Permutation_sym (orderDesc_perm _))).
      apply filter_In. auto.
    + now rewrite (Permutation_length (orderDesc_perm _)).
Qed.

(** C6.  The keyword "_" is no substring of the text "abc", yet GET
    /api/feedback?keyword=_ returns that row: the keyword is put into the
    LIKE pattern unescaped, where [_] matches any character (and [%] any
    run of characters). *)
Theorem like_wildcard_keyword :
  fetch Sample.env (Sample.get "/api/feedback" [(lit "keyword", lit "_")])
        Sample.abcWorld =
    (Normal (feedbackResponse [Sample.abcRow]),
     mkWorld [Sample.abcRow] 1 [CallD1 (Select [TextLike (lit "%_%")] 50)]) /\
  matches None (Some (lit "_")) Sample.abcRow = false /\
  fst (fetch Sample.env (Sample.get "/api/feedback" [(lit "keyword", lit "%")])
             Sample.abcWorld) = Normal (feedbackResponse [Sample.abcRow]) /\
  matches None (Some (lit "%")) Sample.abcRow = false.
Proof. repeat split; reflexivity. Qed.

End Retrieval.


(** ** The keyword rule on queries that do not end in white space *)

Section KeywordRule.

Import Worker Spec.

Lemma isSpace_isDot (c : ascii) : isSpace c = false -> isDot c = true.
Proof. destruct c as [[] [] [] [] [] [] [] []]; vm_compute; congruence. Qed.

Lemma isSpace_lowerChar (c : ascii) : isSpace (lowerChar c) = isSpace c.
Proof. destruct c as [[] [] [] [] [] [] [] []]; reflexivity. Qed.

Lemma endsWithSpace_toLowerCase (s : str) :
  endsWithSpace (toLowerCase s) = endsWithSpace s.
Proof.
  induction s as [|c s IH]; [reflexivity|].
  destruct s as [|d s]; [apply isSpace_lowerChar | exact IH].
Qed.

Lemma endsWithSpace_cons (c : ascii) (s : str) :
  s <> [] -> endsWithSpace (c :: s) = endsWithSpace s.
Proof. destruct s; [congruence | reflexivity]. Qed.

Lemma endsWithSpace_app (pre r : str) :
  r <> [] -> endsWithSpace (pre ++ r) = endsWithSpace r.
Proof.
  intros Hr. induction pre as [|c pre IH]; [reflexivity|].
  cbn [app]. rewrite endsWithSpace_cons; [exact IH|].
  destruct pre; [exact Hr | discriminate].
Qed.

Lemma endsWithSpace_suffix (pre r : str) :
  endsWithSpace (pre ++ r) = false -> endsWithSpace r = false.
Proof.
  destruct r as [|c r]; [reflexivity|].
  now rewrite endsWithSpace_app by discriminate.
Qed.

Lemma allSpace_endsWithSpace (sp : str) :
  Forall (fun c => isSpace c = true) sp -> sp <> [] -> endsWithSpace sp = true.
Proof.
  induction 1 as [|c sp Hc Hsp IH]; [congruence|]. intros _.
  destruct sp as [|d sp]; [exact Hc|]. apply IH. discriminate.
Qed.

(** The white space [trimStart] removes, and what it stops at. *)
Lemma trimStart_split (r : str) :
  exists sp,
    r = sp ++ trimStart r /\
    Forall (fun c => isSpace c = true) sp /\
    match trimStart r with [] => True | d :: _ => isSpace d = false end.
Proof.
  induction r as [|c r (sp & Hr & Hsp & Hhd)]; cbn [trimStart].
  - exists []. auto.
  - destruct (isSpace c) eqn:E.
    + exists (c :: sp). cbn [app]. rewrite <- Hr. auto.
    + exists []. auto.
Qed.

Lemma take_drop_token (s : str) : s = takeToken s ++ dropToken s.
Proof.
  induction s as [|c s IH]; [reflexivity|]. cbn [takeToken dropToken].
  destruct (isSpace c); [reflexivity|]. cbn [app]. now f_equal.
Qed.

Lemma firstn_takeToken (s : str) :
  firstn (List.length s - List.length (dropToken s)) s = takeToken s.
Proof.
  rewrite (take_drop_token s) at 1 3. rewrite length_app.
  replace (List.length (takeToken s) + List.length (dropToken s)
           - List.length (dropToken s))
    with (List.length (takeToken s) + 0) by lia.
  now rewrite firstn_app_2, app_nil_r.
Qed.

Lemma takeToken_noSpace (s : str) :
  Forall (fun c => isSpace c = false) (takeToken s).
Proof.
  induction s as [|c s IH]; cbn [takeToken]; [constructor|].
  destruct (isSpace c) eqn:E; constructor; auto.
Qed.

(** The lazy [.+?] started on a character that is not white space stops
    at the end of the token. *)
Lemma plusL_token {A} (F : str -> A) (d : ascii) (rest : str) :
  isSpace d = false ->
  plusL isDot (fun s2 => if tokenEnd s2 then Some (F s2) else None) (d :: rest)
    = Some (F (dropToken (d :: rest))).
Proof.
  assert (step : forall (k : str -> option A) x xs,
             plusL isDot k (x :: xs) =
               if isDot x then orElse (k xs) (plusL isDot k xs) else None)
    by reflexivity.
  assert (drop : forall x xs,
             dropToken (x :: xs) = if isSpace x then x :: xs else dropToken xs)
    by reflexivity.
  revert d. induction rest as [|e rest IH]; intros d Hd.
  - rewrite step, drop, (isSpace_isDot d Hd), Hd. reflexivity.
  - rewrite step, drop, (isSpace_isDot d Hd), Hd. cbn [tokenEnd].
    destruct (isSpace e) eqn:He; cbn [orElse].
    + rewrite drop, He. reflexivity.
    + apply (IH e He).
Qed.

(** The greedy [\s+] followed by a pattern that matches right after the
    white space takes all of it. *)
Lemma plusG_spaces {A} (k : str -> option A) (sp rest : str) (a : A) :
  Forall (fun c => isSpace c = true) sp -> sp <> [] ->
  match rest with [] => True | d :: _ => isSpace d = false end ->
  k rest = Some a ->
  plusG isSpace k (sp ++ rest) = Some a.
Proof.
  intros Hsp Hne Hhd Hk. induction Hsp as [|c sp Hc Hsp IH]; [congruence|].
  cbn [app plusG]. rewrite Hc. destruct sp as [|c' sp].
  - cbn [app]. replace (plusG isSpace k rest) with (@None A).
    + exact Hk.
    + destruct rest as [|d rest]; [reflexivity|]. cbn [plusG]. now rewrite Hhd.
  - rewrite IH by discriminate. reflexivity.
Qed.

Lemma phraseTail_noSpace (r : str) :
  match r with [] => True | d :: _ => isSpace d = false end ->
  phraseTail r = None.
Proof.
  destruct r as [|d r]; [reflexivity|]. intros Hd.
  unfold phraseTail. cbn [plusG]. now rewrite Hd.
Qed.

(** After the word: the capture is the first token, when the input does
    not end in white space. *)
Lemma phraseTail_token (c : ascii) (r : str) :
  isSpace c = true -> endsWithSpace (c :: r) = false ->
  takeToken (trimStart r) <> [] /\
  phraseTail (c :: r) = Some (Some (takeToken (trimStart r))).
Proof.
  intros Hc He.
  destruct (trimStart_split (c :: r)) as (sp & Hr & Hsp & Hhd).
  assert (Ht : trimStart (c :: r) = trimStart r) by (cbn [trimStart]; now rewrite Hc).
  rewrite Ht in Hr, Hhd.
  assert (Hne : sp <> []).
  { intros ->. cbn [app] in Hr. rewrite <- Hr in Hhd. congruence. }
  destruct (trimStart r) as [|d rest] eqn:Er.
  { rewrite app_nil_r in Hr. rewrite Hr in He.
    rewrite (allSpace_endsWithSpace Hsp Hne) in He. discriminate. }
  split.
  - cbn [takeToken]. rewrite Hhd. discriminate.
  - rewrite Hr. unfold phraseTail.
    apply plusG_spaces; auto.
    rewrite (@plusL_token _
               (fun s2 => Some (firstn (List.length (d :: rest) - List.length s2)
                                       (d :: rest))) d rest Hhd).
    now rewrite firstn_takeToken.
Qed.

Lemma matchHere_tokenAfterHere (w s : str) :
  endsWithSpace s = false ->
  matchHere (phraseAfter w) s = option_map Some (tokenAfterHere w s).
Proof.
  intros He. rewrite matchHere_phraseAfter. unfold tokenAfterHere.
  destruct (stripWord w s) as [r|] eqn:E; [|reflexivity].
  apply stripWord_suffix in E as [pre ->].
  apply endsWithSpace_suffix in He.
  destruct r as [|c r]; [reflexivity|].
  destruct (isSpace c) eqn:Hc.
  - destruct (@phraseTail_token c r Hc He) as [Hne ->].
    destruct (takeToken (trimStart r)); [congruence | reflexivity].
  - now apply phraseTail_noSpace.
Qed.

(** On an input that does not end in white space, the pattern captures
    the first white-space-delimited token after the leftmost "<w> ". *)
Lemma exec_tokenAfter (w s : str) :
  endsWithSpace s = false ->
  exec (phraseAfter w) s = option_map Some (tokenAfter w s).
Proof.
  induction s as [|d s IH]; intros He; cbn [exec tokenAfter];
    rewrite (matchHere_tokenAfterHere w _ He).
  - now destruct (tokenAfterHere w []).
  - destruct (tokenAfterHere w (d :: s)); [reflexivity|]. cbn [option_map orElse].
    apply IH. destruct s as [|e s]; [reflexivity|].
    now rewrite endsWithSpace_cons in He by discriminate.
Qed.

Lemma trimStart_noSpace (t : str) :
  match t with [] => True | d :: _ => isSpace d = false end -> trimStart t = t.
Proof. destruct t as [|d t]; [reflexivity|]. cbn [trimStart]. now intros ->. Qed.

Lemma trim_noSpace (t : str) :
  Forall (fun c => isSpace c = false) t -> trim t = t.
Proof.
  intros H. unfold trim, trimEnd.
  rewrite (trimStart_noSpace t) by (destruct H; auto).
  rewrite trimStart_noSpace, rev_involutive; [reflexivity|].
  apply Forall_rev in H. destruct H; auto.
Qed.

Lemma tokenAfterHere_noSpace (w s t : str) :
  tokenAfterHere w s = Some t -> Forall (fun c => isSpace c = false) t.
Proof.
  unfold tokenAfterHere. destruct (stripWord w s) as [[|c r]|]; try discriminate.
  destruct (isSpace c); [|discriminate].
  destruct (takeToken (trimStart r)) eqn:E; [discriminate|].
  intros H. injection H as <-. rewrite <- E. apply takeToken_noSpace.
Qed.

Lemma tokenAfter_noSpace (w s t : str) :
  tokenAfter w s = Some t -> Forall (fun c => isSpace c = false) t.
Proof.
  induction s as [|d s IH]; cbn [tokenAfter].
  - destruct (tokenAfterHere w []) eqn:E; [|discriminate].
    cbn [orElse]. intros H. injection H as <-. eapply tokenAfterHere_noSpace; eauto.
  - destruct (tokenAfterHere w (d :: s)) eqn:E; cbn [orElse]; [|exact IH].
    intros H. injection H as <-. eapply tokenAfterHere_noSpace; eauto.
Qed.

(** The keyword rule of the claim, for every query that does not end in
    white space: the token after "about", else the token after "with",
    else the trimmed query when no sentiment was detected, else nothing,
    cut to 50 characters. *)
Lemma interpret_keyword_rule (query : str) :
  endsWithSpace query = false ->
  exists f, interpret query = Normal f /\
            f_keyword f = Spec.keyword query (f_sentiment f).
Proof.
  intros He. assert (Hl := He). rewrite <- endsWithSpace_toLowerCase in Hl.
  unfold interpret, Spec.keyword, aboutRe, withRe.
  rewrite !(exec_tokenAfter _ _ Hl).
  destruct (tokenAfter (lit "about") (toLowerCase query)) as [t|] eqn:Ea.
  { cbn [option_map keywordOfMatch]. eexists. split; [reflexivity|].
    cbn [f_keyword]. now rewrite (trim_noSpace (tokenAfter_noSpace _ _ Ea)). }
  destruct (tokenAfter (lit "with") (toLowerCase query)) as [t|] eqn:Ew.
  { cbn [option_map keywordOfMatch]. eexists. split; [reflexivity|].
    cbn [f_keyword]. now rewrite (trim_noSpace (tokenAfter_noSpace _ _ Ew)). }
  cbn [option_map].
  destruct (detectSentiment (toLowerCase query)); eexists; split; reflexivity.
Qed.

(** When no sentiment is detected the keyword is always set (possibly to
    the empty string). *)
Lemma keyword_set_without_sentiment (query : str) :
  exists f, interpret query = Normal f /\
            (f_sentiment f = None -> exists k, f_keyword f = Some k).
Proof.
  destruct (interpret_normal query) as (kw & -> & Hkw).
  eexists. split; [reflexivity|]. cbn [f_sentiment f_keyword]. intros Hs.
  destruct (exec aboutRe (toLowerCase query)).
  { destruct Hkw as (c & a & b & _ & _ & ->). eauto. }
  destruct (exec withRe (toLowerCase query)).
  { destruct Hkw as (c & a & b & _ & _ & ->). eauto. }
  rewrite Hs in Hkw. eauto.
Qed.

(** The examples of section 8. *)
Example interpret_examples :
  interpret (lit "show me negative feedback about bugs") =
    Normal (mkFilters (Some negative) (Some (lit "bugs"))) /\
  interpret (lit "great job") = Normal (mkFilters (Some positive) None) /\
  interpret (lit "slow loading times") =
    Normal (mkFilters None (Some (lit "slow loading times"))).
Proof. repeat split; reflexivity. Qed.

End KeywordRule.


(** ** What a request may change *)

Section Frames.

Import Worker Spec.

(** A body that is null, or whose text is truthy and no string, ends the
    request in a TypeError before anything else happens. *)
Lemma postFeedback_throws (env : Env) (req : Request) (w : World) (b : json) :
  payload req = Some b ->
  b = JNull \/ (toBoolean (textOf b) = true /\ isString (textOf b) = false) ->
  postFeedback env req w = (Throw TypeError, w).
Proof.
  intros Hp H. unfold postFeedback. rewrite Hp.
  destruct H as [-> | [Ht Hs]]; [reflexivity|].
  destruct b as [| | | |l|ms]; try discriminate.
  unfold bind at 1. cbn [member]. unfold ret at 1. cbn [textOf] in Ht, Hs.
  unfold bind at 1. rewrite Ht. cbn [negb].
  destruct (lookup (lit "text") ms) as [[| | |s| |]|]; try discriminate;
    reflexivity.
Qed.

(** The five ways POST /feedback can end. *)
Lemma postFeedback_outcome (env : Env) (req : Request) (w : World) :
  match postFeedback env req w with
  | (Normal r, w') =>
      (r = successResponse /\
       exists t src sent,
         trim t <> [] /\
         rows w' = rows w ++ [mkRow (seq w + 1) t
                                    (D1Engine.textColumn env src)
                                    (Some (sentimentName sent)) (clock env)] /\
         seq w' = (seq w + 1)%Z /\
         calls w' = calls w ++
           [CallAI t; CallD1 (Insert t src (sentimentName sent) (clock env))])
      \/ (status r = 400 /\ w' = w)
      \/ (status r = 500 /\ rows w' = rows w /\ seq w' = seq w /\
          exists extra, calls w' = calls w ++ extra)
  | (Throw e, w') => e = TypeError /\ w' = w
  end.
Proof.
  destruct (payload req) as [b|] eqn:Hp.
  2:{ unfold postFeedback. rewrite Hp. cbn. right. left. auto. }
  destruct b as [| bb | n | s0 | l | ms] eqn:Hb;
    try (rewrite (@postFeedback_rejects_blank env req w _ Hp);
         [right; left; auto | discriminate | left; reflexivity]).
  { rewrite (@postFeedback_throws env req w _ Hp); auto. }
  destruct (toBoolean (textOf (JObj ms))) eqn:Ht.
  2:{ rewrite (@postFeedback_rejects_blank env req w _ Hp);
        [right; left; auto | discriminate | now left]. }
  destruct (isString (textOf (JObj ms))) eqn:Hs.
  2:{ rewrite (@postFeedback_throws env req w _ Hp); auto. }
  cbn [textOf] in Ht, Hs.
  destruct (lookup (lit "text") ms) as [[| | |s| |]|] eqn:Hl; try discriminate.
  destruct (list_eq_dec ascii_dec (trim s) []) as [Hb0|Hb0].
  { rewrite (@postFeedback_rejects_blank env req w _ Hp);
      [right; left; auto | discriminate | right].
    exists s. cbn [textOf]. auto. }
  rewrite (postFeedback_run env req w Hp Hl Hb0).
  destruct (AI env s) as [aiResult|]; cbn zeta.
  2:{ right. right. cbn. repeat split; eauto. }
  destruct (D1 env _).
  - left. split; [reflexivity|].
    exists s, (nullish (lookup (lit "source") ms) JNull), (normalizeSentiment aiResult).
    cbn [rows seq calls]. repeat split; auto. now rewrite <- app_assoc.
  - right. right. cbn. repeat split; eauto. rewrite <- app_assoc. eauto.
Qed.

Lemma D1_all_frame (env : Env) (conds : list Cond) (limit : nat) (w : World) :
  rows (snd (D1_all env conds limit w)) = rows w /\
  seq (snd (D1_all env conds limit w)) = seq w.
Proof.
  unfold D1_all, bind, logCall, throw. cbn. destruct (D1 env _); cbn; auto.
Qed.

Lemma non_post_frame (env : Env) (req : Request) (w : World) :
  route req "/feedback" "POST" = false ->
  rows (snd (fetch env req w)) = rows w /\ seq (snd (fetch env req w)) = seq w.
Proof.
  intros Hr. unfold fetch. rewrite Hr.
  destruct (route req "/feedback" "GET").
  { unfold getFeedback, tryCatch, bind, D1_all, logCall, throw, ret. cbn.
    destruct (D1 env _); cbn; auto. }
  destruct (route req "/api/feedback" "GET").
  { unfold getApiFeedback, tryCatch, bind, D1_all, logCall, throw, ret. cbn.
    destruct (D1 env _); cbn; auto. }
  destruct (route req "/api/insights" "GET").
  { unfold getApiInsights.
    destruct (searchGet (lit "q") (searchParams req)) as [q|]; [|auto].
    destruct (truthyStr (Some q)); [|auto].
    destruct (interpret q); auto. }
  destruct (route req "/dashboard" "GET").
  { unfold getDashboard, tryCatch, bind, D1_counts, logCall, throw, ret. cbn.
    destruct (D1 env _); cbn; auto. }
  auto.
Qed.

(** Only POST /feedback writes: every other request leaves the table and
    its counter as they were. *)
Theorem reads_do_not_write (env : Env) (req : Request) (w : World) :
  route req "/feedback" "POST" = false ->
  rows (snd (fetch env req w)) = rows w /\ seq (snd (fetch env req w)) = seq w.
Proof. apply non_post_frame. Qed.

Lemma reads_do_not_write_witness :
  rows (snd (fetch Sample.env (Sample.get "/feedback" []) Sample.abcWorld))
    = rows Sample.abcWorld /\
  seq (snd (fetch Sample.env (Sample.get "/feedback" []) Sample.abcWorld))
    = seq Sample.abcWorld.
Proof.
  apply (@reads_do_not_write Sample.env (Sample.get "/feedback" [])
                             Sample.abcWorld).
  reflexivity.
Defined.

(** The log of external calls only grows. *)
Lemma calls_only_grow (env : Env) (req : Request) (w : World) :
  exists extra, calls (snd (fetch env req w)) = calls w ++ extra.
Proof.
  unfold fetch.
  destruct (route req "/feedback" "POST").
  { generalize (postFeedback_outcome env req w).
    destruct (postFeedback env req w) as [[r|e] w']; cbn [snd].
    - intros [(_ & t & src & sent & _ & _ & _ & ->) | [[_ ->] | (_ & _ & _ & H)]];
        eauto. exists []. now rewrite app_nil_r.
    - intros [_ ->]. exists []. now rewrite app_nil_r. }
  destruct (route req "/feedback" "GET").
  { unfold getFeedback, tryCatch, bind, D1_all, logCall, throw, ret. cbn.
    destruct (D1 env _); cbn; eauto. }
  destruct (route req "/api/feedback" "GET").
  { unfold getApiFeedback, tryCatch, bind, D1_all, logCall, throw, ret. cbn.
    destruct (D1 env _); cbn; eauto. }
  destruct (route req "/api/insights" "GET").
  { unfold getApiInsights.
    destruct (searchGet (lit "q") (searchParams req)) as [q|];
      [|exists []; now rewrite app_nil_r].
    destruct (truthyStr (Some q)); [|exists []; now rewrite app_nil_r].
    destruct (interpret q); exists []; now rewrite app_nil_r. }
  destruct (route req "/dashboard" "GET").
  { unfold getDashboard, tryCatch, bind, D1_counts, logCall, throw, ret. cbn.
    destruct (D1 env _); cbn; eauto. }
  exists []. now rewrite app_nil_r.
Qed.

(** The table is append-only: whatever the request, the rows that were
    there stay as they are and in place, at most one row is added behind
    them, the counter does not go down and the log of calls only grows. *)
Theorem fetch_append_only (env : Env) (req : Request) (w : World) :
  exists added extra,
    rows (snd (fetch env req w)) = rows w ++ added /\
    List.length added <= 1 /\
    (seq w <= seq (snd (fetch env req w)))%Z /\
    calls (snd (fetch env req w)) = calls w ++ extra.
Proof.
  destruct (calls_only_grow env req w) as [extra Hc].
  destruct (route req "/feedback" "POST") eqn:Hr.
  - revert Hc. rewrite (fetch_post env req Hr).
    generalize (postFeedback_outcome env req w).
    destruct (postFeedback env req w) as [[r|e] w']; cbn [snd].
    + intros [(_ & t & src & sent & _ & Hrows & Hseq & _)
             | [[_ ->] | (_ & Hrows & Hseq & _)]] Hc.
      * eexists; exists extra. rewrite Hrows, Hseq. cbn. repeat split; auto. lia.
      * exists [], extra. rewrite app_nil_r. cbn. repeat split; auto. lia.
      * exists [], extra. rewrite app_nil_r, Hrows, Hseq. cbn.
        repeat split; auto. lia.
    + intros [_ ->] Hc. exists [], extra. rewrite app_nil_r. cbn.
      repeat split; auto. lia.
  - destruct (non_post_frame env req w Hr) as [Hrows Hseq].
    exists [], extra. rewrite app_nil_r, Hrows, Hseq. cbn.
    repeat split; auto. lia.
Qed.

(** Every row the worker writes is well formed, so a table of well-formed
    rows stays one: no stored text is blank and every stored sentiment is
    one of "positive", "negative", "neutral" (never NULL, never the raw
    label of the classifier). *)
Theorem stored_rows_well_formed (env : Env) (req : Request) (w : World) :
  Forall wellFormedRow (rows w) ->
  Forall wellFormedRow (rows (snd (fetch env req w))).
Proof.
  intros Hw. destruct (route req "/feedback" "POST") eqn:Hr.
  - rewrite (fetch_post env req Hr).
    generalize (postFeedback_outcome env req w).
    destruct (postFeedback env req w) as [[r|e] w']; cbn [snd].
    + intros [(_ & t & src & sent & Ht & Hrows & _)
             | [[_ ->] | (_ & Hrows & _)]]; try (rewrite Hrows); auto.
      apply Forall_app. split; [exact Hw|].
      constructor; [|constructor]. split; cbn; eauto.
    + now intros [_ ->].
  - now rewrite (proj1 (non_post_frame env req w Hr)).
Qed.

Lemma stored_rows_well_formed_witness :
  Forall wellFormedRow
    (rows (snd (fetch Sample.env (Sample.post Sample.loveIt) Sample.empty))).
Proof.
  apply (@stored_rows_well_formed Sample.env (Sample.post Sample.loveIt)
                                  Sample.empty).
  constructor.
Defined.

(** POST /feedback writes a row exactly when it answers 200: with any
    other answer, and when the request ends in an exception, the table is
    as it was. *)
Theorem post_writes_iff_success (env : Env) (req : Request) (w : World) :
  route req "/feedback" "POST" = true ->
  match fetch env req w with
  | (Normal r, w') =>
      (status r = 200 ->
         exists row, rows w' = rows w ++ [row] /\ wellFormedRow row /\
                     id row = (seq w + 1)%Z /\ created_at row = clock env) /\
      (status r <> 200 -> rows w' = rows w /\ seq w' = seq w)
  | (Throw _, w') => w' = w
  end.
Proof.
  intros Hr. rewrite (fetch_post env req Hr).
  generalize (postFeedback_outcome env req w).
  destruct (postFeedback env req w) as [[r|e] w'].
  - intros [(-> & t & src & sent & Ht & Hrows & Hseq & _)
           | [[H4 ->] | (H5 & Hrows & Hseq & _)]].
    + split; [|intros H; now elim H].
      intros _. eexists. split; [exact Hrows|]. cbn. repeat split; auto.
      now exists sent.
    + split; [intros H; congruence | auto].
    + split; [intros H; congruence | auto].
  - now intros [_ ->].
Qed.

Lemma post_writes_iff_success_witness :
  match fetch Sample.env (Sample.post Sample.loveIt) Sample.empty with
  | (Normal r, w') =>
      (status r = 200 ->
         exists row, rows w' = rows Sample.empty ++ [row] /\ wellFormedRow row /\
                     id row = (seq Sample.empty + 1)%Z /\
                     created_at row = clock Sample.env) /\
      (status r <> 200 -> rows w' = rows Sample.empty /\ seq w' = seq Sample.empty)
  | (Throw _, w') => w' = Sample.empty
  end.
Proof.
  apply (@post_writes_iff_success Sample.env (Sample.post Sample.loveIt)
                                  Sample.empty).
  reflexivity.
Defined.

(** When D1 rejects the INSERT, the answer is the same 500 as for a
    failed classifier, after both external calls were made, and nothing is
    stored. *)
Theorem storage_failure_writes_nothing
        (env : Env) (req : Request) (w : World)
        (ms : list (str * json)) (s : str) (aiResult : list AiResult) :
  route req "/feedback" "POST" = true ->
  payload req = Some (JObj ms) ->
  lookup (lit "text") ms = Some (JStr s) ->
  trim s <> [] ->
  AI env s = Some aiResult ->
  let stmt := Insert s (nullish (lookup (lit "source") ms) JNull)
                     (sentimentName (normalizeSentiment aiResult)) (clock env) in
  D1 env stmt = false ->
  fetch env req w =
    (Normal (errorResponse 500 "Failed to store feedback"),
     mkWorld (rows w) (seq w) (calls w ++ [CallAI s; CallD1 stmt])).
Proof.
  intros Hr Hp Ht Hs Hai stmt Hd.
  rewrite (fetch_post env req Hr), (postFeedback_run env req w Hp Ht Hs).
  rewrite Hai. cbn zeta. fold stmt. rewrite Hd. now rewrite <- app_assoc.
Qed.

End Frames.

Lemma storage_failure_writes_nothing_witness :
  Worker.fetch Sample.envD1Down (Sample.post Sample.loveIt) Sample.empty =
    (Normal (Worker.errorResponse 500 "Failed to store feedback"),
     mkWorld [] 0
       [CallAI (lit "love it");
        CallD1 (Insert (lit "love it") JNull (lit "positive") Sample.now)]).
Proof.
  apply (@storage_failure_writes_nothing
           Sample.envD1Down (Sample.post Sample.loveIt) Sample.empty
           [(lit "text", JStr (lit "love it"))] (lit "love it")
           [mkAiResult (Some (lit "POSITIVE"))
                       (Some (Dyadic 8106479329266893 (-53)))]);
    [reflexivity | reflexivity | reflexivity | discriminate
     | reflexivity | reflexivity].
Defined.


(** ** Listing: GET /feedback and GET /api/feedback *)

Section Listing.

Import Worker Spec D1Engine.

Lemma route_true (req : Request) (path meth : String.string) :
  route req path meth = true ->
  pathname req = lit path /\ method req = lit meth.
Proof.
  unfold route. rewrite andb_true_iff, !str_eqb_eq. auto.
Qed.

Lemma route_other (req : Request) (path meth path' meth' : String.string) :
  route req path meth = true ->
  str_eqb (lit path) (lit path') && str_eqb (lit meth) (lit meth') = false ->
  route req path' meth' = false.
Proof.
  intros H. apply route_true in H as [Hp Hm]. unfold route. now rewrite Hp, Hm.
Qed.

Lemma fetch_get_feedback (env : Env) (req : Request) :
  route req "/feedback" "GET" = true -> fetch env req = getFeedback env.
Proof.
  intros H. unfold fetch.
  rewrite (route_other req _ _ "/feedback" "POST" H eq_refl). now rewrite H.
Qed.

Lemma fetch_get_api_feedback (env : Env) (req : Request) :
  route req "/api/feedback" "GET" = true -> fetch env req = getApiFeedback env req.
Proof.
  intros H. unfold fetch.
  rewrite (route_other req _ _ "/feedback" "POST" H eq_refl).
  rewrite (route_other req _ _ "/feedback" "GET" H eq_refl). now rewrite H.
Qed.

Lemma fetch_get_dashboard (env : Env) (req : Request) :
  route req "/dashboard" "GET" = true -> fetch env req = getDashboard env.
Proof.
  intros H. unfold fetch.
  rewrite (route_other req _ _ "/feedback" "POST" H eq_refl).
  rewrite (route_other req _ _ "/feedback" "GET" H eq_refl).
  rewrite (route_other req _ _ "/api/feedback" "GET" H eq_refl).
  rewrite (route_other req _ _ "/api/insights" "GET" H eq_refl). now rewrite H.
Qed.

Lemma str_ltb_asym (a b : str) : str_ltb a b = true -> str_ltb b a = false.
Proof.
  revert b. induction a as [|c a IH]; intros [|d b]; cbn [str_ltb]; try congruence.
  rewrite orb_true_iff, andb_true_iff, Nat.ltb_lt, Nat.eqb_eq.
  intros [Hlt | [Heq Hab]].
  - apply orb_false_iff. split.
    + apply Nat.ltb_ge. lia.
    + apply andb_false_iff. left. apply Nat.eqb_neq. lia.
  - apply orb_false_iff. split.
    + apply Nat.ltb_ge. lia.
    + rewrite (IH _ Hab). apply andb_false_r.
Qed.

Lemma insertDesc_HdRel (x r : Row) (l : list Row) :
  HdRel newerFirst x l -> newerFirst x r -> HdRel newerFirst x (insertDesc r l).
Proof.
  intros Hl Hr. destruct l as [|y l]; cbn [insertDesc].
  - now constructor.
  - destruct (str_ltb (created_at r) (created_at y)).
    + constructor. now inversion Hl.
    + now constructor.
Qed.

Lemma insertDesc_sorted (r : Row) (l : list Row) :
  Sorted newerFirst l -> Sorted newerFirst (insertDesc r l).
Proof.
  induction 1 as [|x l Hs IH Hh]; cbn [insertDesc].
  - repeat constructor.
  - destruct (str_ltb (created_at r) (created_at x)) eqn:E.
    + constructor; [exact IH|].
      apply insertDesc_HdRel; [exact Hh | now apply str_ltb_asym].
    + constructor; [now constructor|]. now constructor.
Qed.

Lemma str_ltb_irrefl (a : str) : str_ltb a a = false.
Proof.
  induction a as [|c a IH]; cbn [str_ltb]; [reflexivity|].
  now rewrite Nat.ltb_irrefl, Nat.eqb_refl, IH.
Qed.

(** Rows of one creation time are listed in the order they were stored. *)
Lemma orderDesc_ties (t : str) (l : list Row) :
  Forall (fun r => created_at r = t) l -> orderDesc l = l.
Proof.
  induction 1 as [|x l Hx Hl IH]; cbn [orderDesc fold_right]; [reflexivity|].
  fold (orderDesc l). rewrite IH.
  destruct Hl as [|y l Hy Hl]; cbn [insertDesc]; [reflexivity|].
  now rewrite Hx, Hy, str_ltb_irrefl.
Qed.

(** ORDER BY created_at DESC puts no row before a newer one. *)
Lemma orderDesc_sorted (l : list Row) : Sorted newerFirst (orderDesc l).
Proof.
  induction l as [|x l IH]; cbn [orderDesc fold_right]; [constructor|].
  now apply insertDesc_sorted.
Qed.

Lemma firstn_sorted (n : nat) (l : list Row) :
  Sorted newerFirst l -> Sorted newerFirst (firstn n l).
Proof.
  intros H. revert n. induction H as [|x l Hs IH Hh]; intros [|n]; cbn [firstn];
    try constructor.
  - apply IH.
  - destruct Hh as [|y l Hxy]; destruct n; cbn [firstn]; now constructor.
Qed.

(** What a SELECT of the handlers returns: rows of the table that satisfy
    the conditions, no more than the limit, newest first, and every such
    row when they are within the limit. *)
Lemma select_sound (conds : list Cond) (limit : nat) (table : list Row) :
  List.length (select conds limit table) <= limit /\
  Sorted newerFirst (select conds limit table) /\
  (forall r, In r (select conds limit table) ->
             In r table /\ forallb (holds r) conds = true) /\
  (List.length (filter (fun r => forallb (holds r) conds) table) <= limit ->
   Permutation (select conds limit table)
               (filter (fun r => forallb (holds r) conds) table)).
Proof.
  unfold select. split; [apply firstn_le_length|].
  split; [apply firstn_sorted, orderDesc_sorted|]. split.
  - intros r Hin.
    assert (Hin' : In r (orderDesc (filter (fun r => forallb (holds r) conds) table))).
    { rewrite <- (firstn_skipn limit (orderDesc _)). apply in_or_app. now left. }
    apply (Permutation_in _ (orderDesc_perm _)) in Hin'.
    now apply filter_In in Hin'.
  - intros Hlen. rewrite firstn_all2; [apply orderDesc_perm|].
    now rewrite (Permutation_length (orderDesc_perm _)).
Qed.

Lemma filter_true (l : list Row) : filter (fun _ => true) l = l.
Proof. induction l as [|x l IH]; cbn; [reflexivity | now rewrite IH]. Qed.

(** GET /feedback answers with at most 20 rows of the table, newest
    first, and with the whole table when it has at most 20 rows. *)
Theorem recent_feedback (env : Env) (req : Request) (w : World) :
  route req "/feedback" "GET" = true ->
  D1 env (Select [] 20) = true ->
  exists results,
    fetch env req w =
      (Normal (feedbackResponse results),
       mkWorld (rows w) (seq w) (calls w ++ [CallD1 (Select [] 20)])) /\
    List.length results <= 20 /\
    Sorted newerFirst results /\
    (forall r, In r results -> In r (rows w)) /\
    (List.length (rows w) <= 20 -> Permutation results (rows w)).
Proof.
  intros Hr Hd. rewrite (fetch_get_feedback env req Hr).
  exists (select [] 20 (rows w)). split.
  - unfold getFeedback, tryCatch, bind, D1_all, logCall, ret. cbn.
    now rewrite Hd.
  - destruct (select_sound [] 20 (rows w)) as (Hlen & Hsort & Hin & Hall).
    cbn [forallb] in Hall. rewrite filter_true in Hall.
    repeat split; auto. intros r H. now apply Hin.
Qed.

Lemma recent_feedback_witness :
  exists results,
    fetch Sample.env (Sample.get "/feedback" []) Sample.abcWorld =
      (Normal (feedbackResponse results),
       mkWorld (rows Sample.abcWorld) (seq Sample.abcWorld)
               (calls Sample.abcWorld ++ [CallD1 (Select [] 20)])) /\
    List.length results <= 20 /\
    Sorted newerFirst results /\
    (forall r, In r results -> In r (rows Sample.abcWorld)) /\
    (List.length (rows Sample.abcWorld) <= 20 ->
     Permutation results (rows Sample.abcWorld)).
Proof.
  apply (@recent_feedback Sample.env (Sample.get "/feedback" []) Sample.abcWorld);
    reflexivity.
Defined.

Lemma getApiFeedback_run (env : Env) (req : Request) (w : World) :
  let conds := buildConds (searchGet (lit "sentiment") (searchParams req))
                          (searchGet (lit "keyword") (searchParams req)) in
  getApiFeedback env req w =
    (Normal (if D1 env (Select conds 50)
             then feedbackResponse (select conds 50 (rows w))
             else errorResponse 500 "Failed to retrieve feedback"),
     mkWorld (rows w) (seq w) (calls w ++ [CallD1 (Select conds 50)])).
Proof.
  intros conds. subst conds. unfold getApiFeedback. cbv zeta.
  unfold tryCatch, D1_all. cbv zeta. unfold bind, logCall, ret, throw.
  destruct (D1 env _); reflexivity.
Qed.

Lemma getFeedback_run (env : Env) (w : World) :
  getFeedback env w =
    (Normal (if D1 env (Select [] 20)
             then feedbackResponse (select [] 20 (rows w))
             else errorResponse 500 "Failed to retrieve feedback"),
     mkWorld (rows w) (seq w) (calls w ++ [CallD1 (Select [] 20)])).
Proof.
  unfold getFeedback, tryCatch, D1_all. cbv zeta.
  unfold bind, logCall, ret, throw. destruct (D1 env _); reflexivity.
Qed.

(** When D1 rejects the SELECT, both listing routes answer 500 "Failed to
    retrieve feedback" after that one call. *)
Theorem retrieval_failure (env : Env) (req : Request) (w : World) :
  (route req "/feedback" "GET" = true ->
   D1 env (Select [] 20) = false ->
   fetch env req w =
     (Normal (errorResponse 500 "Failed to retrieve feedback"),
      mkWorld (rows w) (seq w) (calls w ++ [CallD1 (Select [] 20)]))) /\
  (route req "/api/feedback" "GET" = true ->
   forall conds,
     conds = buildConds (searchGet (lit "sentiment") (searchParams req))
                        (searchGet (lit "keyword") (searchParams req)) ->
     D1 env (Select conds 50) = false ->
     fetch env req w =
       (Normal (errorResponse 500 "Failed to retrieve feedback"),
        mkWorld (rows w) (seq w) (calls w ++ [CallD1 (Select conds 50)]))).
Proof.
  split.
  - intros Hr Hd. rewrite (fetch_get_feedback env req Hr).
    unfold getFeedback, tryCatch, bind, D1_all, logCall, ret, throw. cbn.
    now rewrite Hd.
  - intros Hr conds -> Hd. rewrite (fetch_get_api_feedback env req Hr).
    rewrite getApiFeedback_run. cbn zeta. now rewrite Hd.
Qed.

(** GET /api/feedback without a sentiment and a keyword (absent or empty
    parameters) lists the 50 newest rows: the first 50 of the whole table
    put newest first; and GET /feedback lists the first 20 of the same
    list. *)
Theorem unfiltered_lists_agree (env : Env) (req : Request) (w : World) :
  route req "/api/feedback" "GET" = true ->
  truthyStr (searchGet (lit "sentiment") (searchParams req)) = false ->
  truthyStr (searchGet (lit "keyword") (searchParams req)) = false ->
  D1 env (Select [] 50) = true ->
  exists newest,
    fst (fetch env req w) = Normal (feedbackResponse newest) /\
    (exists all,
       Permutation all (rows w) /\ Sorted newerFirst all /\
       newest = firstn 50 all) /\
    List.length newest <= 50 /\
    (List.length (rows w) <= 50 -> Permutation newest (rows w)) /\
    forall req' w',
      route req' "/feedback" "GET" = true ->
      D1 env (Select [] 20) = true ->
      rows w' = rows w ->
      fst (fetch env req' w') = Normal (feedbackResponse (firstn 20 newest)).
Proof.
  intros Hr Hs Hk Hd. rewrite (fetch_get_api_feedback env req Hr).
  rewrite getApiFeedback_run. cbn zeta. unfold buildConds.
  rewrite Hs, Hk. cbn [app]. rewrite Hd.
  exists (select [] 50 (rows w)). split; [reflexivity|].
  destruct (select_sound [] 50 (rows w)) as (Hlen & _ & _ & Hall).
  cbn [forallb] in Hall. rewrite filter_true in Hall.
  split.
  { exists (orderDesc (rows w)).
    split; [apply orderDesc_perm|]. split; [apply orderDesc_sorted|].
    unfold select. cbn [forallb]. now rewrite filter_true. }
  split; [exact Hlen|]. split; [exact Hall|].
  intros req' w' Hr' Hd' Hrows. rewrite (fetch_get_feedback env req' Hr').
  rewrite getFeedback_run, Hd'. cbn [fst]. rewrite Hrows.
  do 2 f_equal. unfold select. symmetry. apply firstn_firstn.
Qed.

Lemma unfiltered_lists_agree_witness :
  exists newest,
    fst (fetch Sample.env (Sample.get "/api/feedback" [(lit "keyword", [])])
               Sample.abcWorld) = Normal (feedbackResponse newest) /\
    (exists all,
       Permutation all (rows Sample.abcWorld) /\ Sorted newerFirst all /\
       newest = firstn 50 all) /\
    List.length newest <= 50 /\
    (List.length (rows Sample.abcWorld) <= 50 ->
     Permutation newest (rows Sample.abcWorld)) /\
    forall req' w',
      route req' "/feedback" "GET" = true ->
      D1 Sample.env (Select [] 20) = true ->
      rows w' = rows Sample.abcWorld ->
      fst (fetch Sample.env req' w') = Normal (feedbackResponse (firstn 20 newest)).
Proof.
  apply (@unfiltered_lists_agree
           Sample.env (Sample.get "/api/feedback" [(lit "keyword", [])])
           Sample.abcWorld); reflexivity.
Defined.

(** The sentiment parameter of GET /api/feedback is compared as it is
    written: every row listed carries exactly that sentiment, and on a
    table written by the worker a value that is none of "positive",
    "negative", "neutral" (for instance "Positive") lists nothing. *)
Theorem sentiment_filter_exact
        (env : Env) (req : Request) (w : World) (s : str) :
  route req "/api/feedback" "GET" = true ->
  searchGet (lit "sentiment") (searchParams req) = Some s ->
  s <> [] ->
  D1 env (Select (buildConds (Some s)
                    (searchGet (lit "keyword") (searchParams req))) 50) = true ->
  exists results,
    fst (fetch env req w) = Normal (feedbackResponse results) /\
    (forall r, In r results -> In r (rows w) /\ sentiment r = Some s) /\
    (Forall wellFormedRow (rows w) ->
     (forall x, s <> sentimentName x) -> results = []).
Proof.
  intros Hr Hs Hne Hd. rewrite (fetch_get_api_feedback env req Hr).
  rewrite getApiFeedback_run. cbn zeta. rewrite Hs, Hd. cbn [fst].
  eexists. split; [reflexivity|].
  set (conds := buildConds (Some s) _).
  assert (Hin : forall r, In r (select conds 50 (rows w)) ->
                          In r (rows w) /\ sentiment r = Some s).
  { intros r H. destruct (select_sound conds 50 (rows w)) as (_ & _ & Hsel & _).
    destruct (Hsel r H) as [Ht Hc]. split; [exact Ht|].
    unfold conds, buildConds in Hc. cbn [truthyStr stringOfOpt] in Hc.
    apply str_eqb_neq in Hne. rewrite Hne in Hc. cbn [negb app forallb] in Hc.
    apply andb_true_iff in Hc as [Hc _]. cbn [holds] in Hc.
    destruct (sentiment r) as [s'|]; [|discriminate].
    apply str_eqb_eq in Hc. now subst. }
  split; [exact Hin|].
  intros Hw Hnot. destruct (select conds 50 (rows w)) as [|r l] eqn:E;
    [reflexivity|].
  destruct (Hin r (or_introl eq_refl)) as [Ht Hsr].
  rewrite Forall_forall in Hw. destruct (Hw r Ht) as [_ [x Hx]].
  rewrite Hx in Hsr. injection Hsr as Hsr. now elim (Hnot x).
Qed.

Lemma sentiment_filter_exact_witness :
  exists results,
    fst (fetch Sample.env
               (Sample.get "/api/feedback" [(lit "sentiment", lit "Neutral")])
               Sample.abcWorld) = Normal (feedbackResponse results) /\
    (forall r, In r results ->
               In r (rows Sample.abcWorld) /\ sentiment r = Some (lit "Neutral")) /\
    (Forall wellFormedRow (rows Sample.abcWorld) ->
     (forall x, lit "Neutral" <> sentimentName x) -> results = []).
Proof.
  apply (@sentiment_filter_exact
           Sample.env
           (Sample.get "/api/feedback" [(lit "sentiment", lit "Neutral")])
           Sample.abcWorld (lit "Neutral"));
    [reflexivity | reflexivity | discriminate | reflexivity].
Defined.



End Listing.


(** ** Ingestion followed by retrieval, and the counts of the dashboard *)

Section RoundTrip.

Import Worker Spec D1Engine.

Lemma sentimentName_nonempty (x : Sentiment) : sentimentName x <> [].
Proof. destruct x; discriminate. Qed.

(** A record just ingested into a table of fewer than 20 rows is listed
    by GET /feedback, and by GET /api/feedback filtered on the sentiment
    it was given, with its source as the TEXT column keeps it. *)
Theorem ingested_row_is_listed
        (env : Env) (req : Request) (w : World)
        (ms : list (str * json)) (s : str) (aiResult : list AiResult) :
  route req "/feedback" "POST" = true ->
  payload req = Some (JObj ms) ->
  lookup (lit "text") ms = Some (JStr s) ->
  trim s <> [] ->
  AI env s = Some aiResult ->
  let src := nullish (lookup (lit "source") ms) JNull in
  let sent := sentimentName (normalizeSentiment aiResult) in
  let row := mkRow (seq w + 1) s (textColumn env src) (Some sent) (clock env) in
  D1 env (Insert s src sent (clock env)) = true ->
  List.length (rows w) < 20 ->
  exists w1,
    fetch env req w = (Normal successResponse, w1) /\
    (forall req1,
       route req1 "/feedback" "GET" = true ->
       D1 env (Select [] 20) = true ->
       exists results,
         fst (fetch env req1 w1) = Normal (feedbackResponse results) /\
         In row results /\ Permutation results (rows w ++ [row])) /\
    (forall req2,
       route req2 "/api/feedback" "GET" = true ->
       searchGet (lit "sentiment") (searchParams req2) = Some sent ->
       searchGet (lit "keyword") (searchParams req2) = None ->
       D1 env (Select [SentimentEq sent] 50) = true ->
       exists results,
         fst (fetch env req2 w1) = Normal (feedbackResponse results) /\
         In row results).
Proof.
  intros Hr Hp Ht Hs Hai src sent row Hd Hlen.
  rewrite (fetch_post env req Hr), (postFeedback_run env req w Hp Ht Hs).
  rewrite Hai. cbn zeta. fold src sent. rewrite Hd. fold row.
  eexists. split; [reflexivity|]. split.
  - intros req1 Hr1 Hd1. rewrite (fetch_get_feedback env req1 Hr1).
    rewrite getFeedback_run, Hd1. cbn [fst rows].
    destruct (select_sound [] 20 (rows w ++ [row])) as (_ & _ & _ & Hall).
    cbn [forallb] in Hall. rewrite filter_true in Hall.
    assert (Hperm : Permutation (select [] 20 (rows w ++ [row])) (rows w ++ [row])).
    { apply Hall. rewrite length_app. cbn. lia. }
    eexists. split; [reflexivity|]. split; [|exact Hperm].
    apply (Permutation_in _ (Permutation_sym Hperm)).
    apply in_or_app. right. now left.
  - intros req2 Hr2 Hsq Hkq Hd2. rewrite (fetch_get_api_feedback env req2 Hr2).
    rewrite getApiFeedback_run. cbn zeta. rewrite Hsq, Hkq.
    assert (Hc : buildConds (Some sent) None = [SentimentEq sent]).
    { unfold buildConds. cbn [truthyStr stringOfOpt].
      replace (str_eqb sent []) with false
        by (symmetry; apply str_eqb_neq, sentimentName_nonempty).
      reflexivity. }
    rewrite Hc, Hd2. cbn [fst rows].
    eexists. split; [reflexivity|].
    destruct (select_sound [SentimentEq sent] 50 (rows w ++ [row]))
      as (_ & _ & _ & Hall).
    assert (Hperm : Permutation
              (select [SentimentEq sent] 50 (rows w ++ [row]))
              (filter (fun r => forallb (holds r) [SentimentEq sent])
                      (rows w ++ [row]))).
    { apply Hall.
      eapply Nat.le_trans; [apply filter_length_le|].
      rewrite length_app. cbn. lia. }
    apply (Permutation_in _ (Permutation_sym Hperm)).
    apply filter_In. split.
    + apply in_or_app. right. now left.
    + cbn. now rewrite str_eqb_refl.
Qed.

Lemma countOf_cons (s : str) (r : Row) (t : list Row) :
  countOf s (r :: t) = (if holds r (SentimentEq s) then 1 else 0) + countOf s t.
Proof. unfold countOf. cbn [filter]. now destruct (holds r (SentimentEq s)). Qed.

Lemma counts_partition (t : list Row) :
  Forall wellFormedRow t ->
  countOf (lit "positive") t + countOf (lit "neutral") t
    + countOf (lit "negative") t = List.length t.
Proof.
  induction 1 as [|r t [_ [x Hx]] Ht IH]; [reflexivity|].
  rewrite !countOf_cons. cbn [holds]. rewrite Hx. cbn [List.length].
  set (a := countOf (lit "positive") t) in *.
  set (b := countOf (lit "neutral") t) in *.
  set (c := countOf (lit "negative") t) in *.
  destruct x; cbn; lia.
Qed.

(** The key a sentiment takes in [counts]. *)
Lemma key_eqb_eq (a b : option str) : key_eqb a b = true <-> a = b.
Proof.
  destruct a as [x|], b as [y|]; cbn [key_eqb]; try rewrite str_eqb_eq;
    split; congruence.
Qed.

Lemma key_eqb_sym (a b : option str) : key_eqb a b = key_eqb b a.
Proof.
  destruct (key_eqb a b) eqn:E, (key_eqb b a) eqn:F; try reflexivity.
  - apply key_eqb_eq in E. subst b.
    assert (H : key_eqb a a = true) by now apply key_eqb_eq. congruence.
  - apply key_eqb_eq in F. subst b.
    assert (H : key_eqb a a = true) by now apply key_eqb_eq. congruence.
Qed.

(** A result is read at key [s], another name than "null", exactly when
    its sentiment is [s]. *)
Lemma hit_key (s : str) (k : option str) :
  s <> lit "null" ->
  str_eqb s (match k with Some x => x | None => lit "null" end)
    = key_eqb (Some s) k.
Proof.
  intros Hs. destruct k as [x|]; cbn [key_eqb]; [reflexivity|].
  now apply str_eqb_neq.
Qed.

(** What the loop of lines 376-379 leaves at a key. *)
Lemma countsLoop_lastCount (results : list (option str * nat)) (s : str) :
  countsLoop results s = lastCount s results 0.
Proof.
  unfold countsLoop. change 0 with (initialCounts s).
  generalize initialCounts as c.
  induction results as [|[k n] g IH]; intros c; cbn [fold_left lastCount];
    [reflexivity|].
  rewrite IH. reflexivity.
Qed.

Lemma lastCount_miss (s : str) (g : list (option str * nat)) (d : nat) :
  s <> lit "null" ->
  existsb (fun e => key_eqb (Some s) (fst e)) g = false ->
  lastCount s g d = d.
Proof.
  intros Hs. revert d.
  induction g as [|[k n] g IH]; intros d; cbn [existsb lastCount fst];
    [reflexivity|].
  rewrite orb_false_iff. intros [Hk Hg].
  rewrite (hit_key k Hs), Hk. now apply IH.
Qed.

Lemma lastCount_hit (s : str) (g : list (option str * nat)) (d d' : nat) :
  s <> lit "null" ->
  existsb (fun e => key_eqb (Some s) (fst e)) g = true ->
  lastCount s g d = lastCount s g d'.
Proof.
  intros Hs. revert d d'.
  induction g as [|[k n] g IH]; intros d d'; cbn [existsb lastCount fst];
    [discriminate|].
  rewrite (hit_key k Hs). intros H.
  destruct (key_eqb (Some s) k) eqn:Hk; [reflexivity|].
  now apply IH.
Qed.

(** One more row in an existing group. *)
Lemma lastCount_map (k : option str) (s : str)
      (g : list (option str * nat)) (d : nat) :
  s <> lit "null" ->
  lastCount s
    (map (fun e => if key_eqb k (fst e) then (fst e, S (snd e)) else e) g) d =
  if key_eqb k (Some s) && existsb (fun e => key_eqb (Some s) (fst e)) g
  then S (lastCount s g d) else lastCount s g d.
Proof.
  intros Hs. revert d.
  induction g as [|[k' n] g IH]; intros d.
  { cbn. now rewrite andb_false_r. }
  cbn [map fst snd existsb].
  destruct (key_eqb k (Some s)) eqn:Hk.
  - apply key_eqb_eq in Hk as ->. cbn [andb] in *.
    destruct (key_eqb (Some s) k') eqn:Hk'; cbn [lastCount orb].
    + rewrite IH. rewrite !(hit_key k' Hs), Hk'.
      destruct (existsb _ g) eqn:Hg.
      * f_equal. now apply lastCount_hit.
      * now rewrite !lastCount_miss.
    + rewrite IH. now rewrite !(hit_key k' Hs), Hk'.
  - cbn [andb] in *.
    destruct (key_eqb k k') eqn:Hk'; cbn [lastCount]; rewrite IH;
      [|reflexivity].
    apply key_eqb_eq in Hk' as <-.
    now rewrite (hit_key k Hs), key_eqb_sym, Hk.
Qed.

(** The first row of a new group. *)
Lemma lastCount_insertKey (k : option str) (s : str)
      (g : list (option str * nat)) (d : nat) :
  s <> lit "null" ->
  existsb (fun e => key_eqb k (fst e)) g = false ->
  lastCount s (insertKey k g) d =
    if key_eqb k (Some s) then 1 else lastCount s g d.
Proof.
  intros Hs. revert d.
  induction g as [|[k' n] g IH]; intros d Hg.
  { cbn [insertKey lastCount]. now rewrite (hit_key k Hs), key_eqb_sym. }
  assert (Hg' := Hg). cbn [existsb fst] in Hg'.
  apply orb_false_iff in Hg' as [Hk' Hrest].
  cbn [insertKey]. destruct (key_ltb k k').
  - cbn [lastCount]. rewrite (hit_key k Hs), key_eqb_sym.
    rewrite !(hit_key k' Hs).
    destruct (key_eqb k (Some s)) eqn:Hk; [|reflexivity].
    apply key_eqb_eq in Hk as ->. rewrite Hk'. now apply lastCount_miss.
  - cbn [lastCount]. now rewrite IH.
Qed.

Lemma lastCount_bump (k : option str) (s : str) (g : list (option str * nat)) :
  s <> lit "null" ->
  lastCount s (bump k g) 0 =
    (if key_eqb k (Some s) then 1 else 0) + lastCount s g 0.
Proof.
  intros Hs. unfold bump.
  destruct (existsb (fun e => key_eqb k (fst e)) g) eqn:Hg.
  - rewrite lastCount_map by exact Hs.
    destruct (key_eqb k (Some s)) eqn:Hk; [|reflexivity].
    apply key_eqb_eq in Hk as ->. now rewrite Hg.
  - rewrite lastCount_insertKey by assumption.
    destruct (key_eqb k (Some s)) eqn:Hk; [|reflexivity].
    apply key_eqb_eq in Hk as ->. now rewrite lastCount_miss.
Qed.

Lemma lastCount_groups (s : str) (t : list Row) (g : list (option str * nat)) :
  s <> lit "null" ->
  lastCount s (fold_left (fun groups r => bump (sentiment r) groups) t g) 0 =
    lastCount s g 0 + countOf s t.
Proof.
  intros Hs. revert g.
  induction t as [|r t IH]; intros g; cbn [fold_left].
  { unfold countOf. cbn. lia. }
  rewrite IH, lastCount_bump, countOf_cons by exact Hs.
  replace (holds r (SentimentEq s)) with (key_eqb (sentiment r) (Some s));
    [lia|].
  cbn [holds]. now destruct (sentiment r).
Qed.

(** GROUP BY followed by the loop gives, at every key but "null", the
    number of rows of that sentiment: a sentiment without rows has no
    group and keeps its initial 0. *)
Lemma countsLoop_groupBySentiment (s : str) (t : list Row) :
  s <> lit "null" ->
  countsLoop (groupBySentiment t) s = countOf s t.
Proof.
  intros Hs. rewrite countsLoop_lastCount. unfold groupBySentiment.
  now rewrite lastCount_groups.
Qed.

(** On a table written by the worker, the three counts of the dashboard
    are the numbers of rows of each sentiment and add up to the number of
    rows. *)
Theorem dashboard_counts (env : Env) (req : Request) (w : World) :
  route req "/dashboard" "GET" = true ->
  D1 env SelectCounts = true ->
  Forall wellFormedRow (rows w) ->
  exists p n g,
    fst (fetch env req w) = Normal (mkResponse 200 (HtmlBody p n g)) /\
    p = List.length (filter (fun r => optStr_is (sentiment r) (lit "positive")) (rows w)) /\
    n = List.length (filter (fun r => optStr_is (sentiment r) (lit "neutral")) (rows w)) /\
    g = List.length (filter (fun r => optStr_is (sentiment r) (lit "negative")) (rows w)) /\
    p + n + g = List.length (rows w).
Proof.
  intros Hr Hd Hw. rewrite (fetch_get_dashboard env req Hr).
  unfold getDashboard, tryCatch, D1_counts. unfold bind, logCall, ret, throw.
  rewrite Hd. cbn [fst rows].
  do 3 eexists. split; [reflexivity|].
  rewrite !countsLoop_groupBySentiment by discriminate.
  repeat split; try reflexivity. now apply counts_partition.
Qed.

Lemma dashboard_counts_witness :
  exists p n g,
    fst (fetch Sample.env (Sample.get "/dashboard" []) Sample.abcWorld)
      = Normal (mkResponse 200 (HtmlBody p n g)) /\
    p = List.length (filter (fun r => optStr_is (sentiment r) (lit "positive"))
                            (rows Sample.abcWorld)) /\
    n = List.length (filter (fun r => optStr_is (sentiment r) (lit "neutral"))
                            (rows Sample.abcWorld)) /\
    g = List.length (filter (fun r => optStr_is (sentiment r) (lit "negative"))
                            (rows Sample.abcWorld)) /\
    p + n + g = List.length (rows Sample.abcWorld).
Proof.
  apply (@dashboard_counts Sample.env (Sample.get "/dashboard" [])
                           Sample.abcWorld);
    [reflexivity | reflexivity |].
  constructor; [|constructor]. split; [discriminate|]. now exists neutral.
Defined.

(** Three rows of two sentiments: the grouped results, and the counts
    the page shows. *)
Example dashboard_counts_example :
  let t := [mkRow 1 (lit "a") JNull (Some (lit "positive")) Sample.now;
            mkRow 2 (lit "b") JNull (Some (lit "negative")) Sample.now;
            mkRow 3 (lit "c") JNull (Some (lit "positive")) Sample.now] in
  groupBySentiment t = [(Some (lit "negative"), 1); (Some (lit "positive"), 2)] /\
  fst (fetch Sample.env (Sample.get "/dashboard" []) (mkWorld t 3 [])) =
    Normal (mkResponse 200 (HtmlBody 2 0 1)).
Proof. split; reflexivity. Qed.

End RoundTrip.

Lemma ingested_row_is_listed_witness :
  exists w1,
    Worker.fetch Sample.env (Sample.post Sample.loveIt) Sample.empty
      = (Normal Worker.successResponse, w1) /\
    (forall req1,
       Worker.route req1 "/feedback" "GET" = true ->
       D1 Sample.env (Select [] 20) = true ->
       exists results,
         fst (Worker.fetch Sample.env req1 w1)
           = Normal (Worker.feedbackResponse results) /\
         In Sample.loveItRow results /\
         Permutation results (rows Sample.empty ++ [Sample.loveItRow])) /\
    (forall req2,
       Worker.route req2 "/api/feedback" "GET" = true ->
       Worker.searchGet (lit "sentiment") (searchParams req2)
         = Some (lit "positive") ->
       Worker.searchGet (lit "keyword") (searchParams req2) = None ->
       D1 Sample.env (Select [SentimentEq (lit "positive")] 50) = true ->
       exists results,
         fst (Worker.fetch Sample.env req2 w1)
           = Normal (Worker.feedbackResponse results) /\
         In Sample.loveItRow results).
Proof.
  apply (@ingested_row_is_listed
           Sample.env (Sample.post Sample.loveIt) Sample.empty
           [(lit "text", JStr (lit "love it"))] (lit "love it")
           [mkAiResult (Some (lit "POSITIVE"))
                       (Some (Dyadic 8106479329266893 (-53)))]);
    [reflexivity | reflexivity | reflexivity | discriminate
     | reflexivity | reflexivity | apply Nat.ltb_lt; reflexivity].
Defined.


(** ** More on the query interpreter *)

Section InterpreterEdges.

Import Worker Spec.

Lemma fetch_get_api_insights (env : Env) (req : Request) :
  route req "/api/insights" "GET" = true -> fetch env req = getApiInsights req.
Proof.
  intros H. unfold fetch.
  rewrite (route_other req _ _ "/feedback" "POST" H eq_refl).
  rewrite (route_other req _ _ "/feedback" "GET" H eq_refl).
  rewrite (route_other req _ _ "/api/feedback" "GET" H eq_refl). now rewrite H.
Qed.

(** GET /api/insights never answers 500 and calls nothing: it answers 400
    exactly when [q] is absent or empty, and otherwise 200 with the
    filters of the interpreter; the world is untouched either way. *)
Theorem insights_never_fails (env : Env) (req : Request) (w : World) :
  route req "/api/insights" "GET" = true ->
  match searchGet (lit "q") (searchParams req) with
  | None | Some [] =>
      fetch env req w =
        (Normal (errorResponse 400 "Missing query parameter 'q'"), w)
  | Some query =>
      exists f,
        interpret query = Normal f /\
        fetch env req w = (Normal (mkResponse 200 (JsonBody (filtersJson f))), w)
  end.
Proof.
  intros Hr. rewrite (fetch_get_api_insights env req Hr). unfold getApiInsights.
  destruct (searchGet (lit "q") (searchParams req)) as [[|c q]|]; try reflexivity.
  cbn [truthyStr].
  replace (str_eqb (c :: q) []) with false by (symmetry; now apply str_eqb_neq).
  cbn [negb]. destruct (interpret_normal (c :: q)) as (kw & H & _).
  rewrite H. eexists. split; reflexivity.
Qed.

Lemma insights_never_fails_witness :
  exists f,
    interpret (lit "great job") = Normal f /\
    fetch Sample.env (Sample.get "/api/insights" [(lit "q", lit "great job")])
          Sample.empty =
      (Normal (mkResponse 200 (JsonBody (filtersJson f))), Sample.empty).
Proof.
  apply (@insights_never_fails
           Sample.env (Sample.get "/api/insights" [(lit "q", lit "great job")])
           Sample.empty).
  reflexivity.
Defined.

Lemma trimStart_allSpace (s : str) :
  Forall (fun c => isSpace c = true) s -> trimStart s = [].
Proof. induction 1 as [|c s Hc _ IH]; cbn [trimStart]; [|rewrite Hc]; auto. Qed.

Lemma trim_allSpace (s : str) :
  Forall (fun c => isSpace c = true) s -> trim s = [].
Proof. intros H. unfold trim. now rewrite (trimStart_allSpace H). Qed.

(** After the word and its white space, when a token follows. *)
Lemma phraseTail_token_follows (c d : ascii) (r rest : str) :
  isSpace c = true -> trimStart r = d :: rest ->
  phraseTail (c :: r) = Some (Some (takeToken (d :: rest))).
Proof.
  intros Hc Er.
  destruct (trimStart_split (c :: r)) as (sp & Hr & Hsp & Hhd).
  assert (Ht : trimStart (c :: r) = trimStart r) by (cbn [trimStart]; now rewrite Hc).
  rewrite Ht, Er in Hr, Hhd.
  assert (Hne : sp <> []).
  { intros ->. cbn [app] in Hr. injection Hr as -> _. congruence. }
  rewrite Hr. unfold phraseTail. apply plusG_spaces; auto.
  rewrite (@plusL_token _
             (fun s2 => Some (firstn (List.length (d :: rest) - List.length s2)
                                     (d :: rest))) d rest Hhd).
  now rewrite firstn_takeToken.
Qed.

(** The capture of a match is one token, or white space at the very end
    of the input. *)
Lemma matchHere_capture_shape (w s : str) (mt : option str) :
  matchHere (phraseAfter w) s = Some mt ->
  exists c, mt = Some c /\ c <> [] /\
    (Forall (fun x => isSpace x = false) c \/
     (Forall (fun x => isSpace x = true) c /\ endsWithSpace s = true)).
Proof.
  rewrite matchHere_phraseAfter.
  destruct (stripWord w s) as [r|] eqn:E; [|discriminate].
  apply stripWord_suffix in E as [pre ->].
  destruct r as [|c r]; [discriminate|].
  destruct (isSpace c) eqn:Hc.
  2:{ rewrite phraseTail_noSpace by exact Hc. discriminate. }
  destruct (trimStart r) as [|d rest] eqn:Er.
  - intros H. apply phraseTail_capture in H as (x & a & b & -> & Hne & Hx).
    exists x. split; [reflexivity|]. split; [exact Hne|]. right.
    destruct (trimStart_split (c :: r)) as (sp & Hr & Hsp & _).
    assert (Ht : trimStart (c :: r) = []) by (cbn [trimStart]; now rewrite Hc).
    rewrite Ht, app_nil_r in Hr. rewrite <- Hr in Hsp. split.
    + rewrite Hx in Hsp. now apply Forall_infix in Hsp.
    + rewrite endsWithSpace_app by discriminate.
      apply allSpace_endsWithSpace; [exact Hsp | discriminate].
  - rewrite (@phraseTail_token_follows c d r rest Hc Er).
    intros H. injection H as <-. eexists. split; [reflexivity|].
    destruct (trimStart_split r) as (_ & _ & _ & Hhd). rewrite Er in Hhd.
    split; [cbn [takeToken]; rewrite Hhd; discriminate|].
    left. exact (takeToken_noSpace (d :: rest)).
Qed.

Lemma exec_capture_shape (w s : str) (mt : option str) :
  exec (phraseAfter w) s = Some mt ->
  exists c, mt = Some c /\ c <> [] /\
    (Forall (fun x => isSpace x = false) c \/
     (Forall (fun x => isSpace x = true) c /\ endsWithSpace s = true)).
Proof.
  induction s as [|d s IH]; cbn [exec].
  - destruct (matchHere (phraseAfter w) []) eqn:E; [|discriminate].
    cbn [orElse]. intros H. injection H as <-.
    now apply matchHere_capture_shape in E.
  - destruct (matchHere (phraseAfter w) (d :: s)) eqn:E; cbn [orElse].
    + intros H. injection H as <-. now apply matchHere_capture_shape in E.
    + intros H. destruct (IH H) as (c & -> & Hne & [Hc | [Hc He]]).
      * exists c. auto.
      * exists c. split; [reflexivity|]. split; [exact Hne|]. right.
        split; [exact Hc|]. rewrite endsWithSpace_cons; [exact He|].
        intros ->. discriminate.
Qed.

(** A keyword set by the "about" or the "with" rule holds no white space:
    it is one token of the query (cut to 50 characters), and it is the
    empty string only for a query that ends in white space. *)
Theorem phrase_keyword_is_one_token (query : str) :
  exists f,
    interpret query = Normal f /\
    ((exec aboutRe (toLowerCase query) <> None \/
      exec withRe (toLowerCase query) <> None) ->
     exists k, f_keyword f = Some k /\
               Forall (fun x => isSpace x = false) k /\
               (k = [] -> endsWithSpace query = true)).
Proof.
  assert (shape : forall w mt,
            exec (phraseAfter w) (toLowerCase query) = Some mt ->
            exists c, mt = Some c /\
              Forall (fun x => isSpace x = false) (substring0 50 (trim c)) /\
              (substring0 50 (trim c) = [] -> endsWithSpace query = true)).
  { intros w mt H. apply exec_capture_shape in H as (c & -> & Hne & [Hc | [Hc He]]).
    - exists c. split; [reflexivity|]. rewrite (trim_noSpace Hc). split.
      + destruct (substring0_prefix 50 c) as [b Hb]. rewrite Hb in Hc.
        now apply Forall_app in Hc.
      + destruct c; [congruence | discriminate].
    - exists c. split; [reflexivity|]. rewrite (trim_allSpace Hc). split.
      + constructor.
      + intros _. now rewrite <- endsWithSpace_toLowerCase. }
  unfold interpret.
  destruct (exec aboutRe (toLowerCase query)) as [mt|] eqn:Ea.
  { destruct (shape _ _ Ea) as (c & -> & H1 & H2). cbn [keywordOfMatch].
    eexists. split; [reflexivity|]. intros _. cbn [f_keyword]. eauto. }
  destruct (exec withRe (toLowerCase query)) as [mt|] eqn:Ew.
  { destruct (shape _ _ Ew) as (c & -> & H1 & H2). cbn [keywordOfMatch].
    eexists. split; [reflexivity|]. intros _. cbn [f_keyword]. eauto. }
  destruct (detectSentiment (toLowerCase query));
    (eexists; split; [reflexivity | intros [H|H]; now elim H]).
Qed.

End InterpreterEdges.


(** ** The page script against the worker *)

Section Page.

Import Worker Spec Dashboard.

Lemma endsWithSpace_snoc (u : str) (d : ascii) :
  endsWithSpace (u ++ [d]) = isSpace d.
Proof. now rewrite endsWithSpace_app by discriminate. Qed.

(** A trimmed string does not end in white space. *)
Lemma endsWithSpace_trim (s : str) : endsWithSpace (trim s) = false.
Proof.
  unfold trim, trimEnd.
  destruct (trimStart_split (rev (trimStart s))) as (_ & _ & _ & Hhd).
  destruct (trimStart (rev (trimStart s))) as [|d u]; [reflexivity|].
  cbn [rev]. now rewrite endsWithSpace_snoc.
Qed.

Lemma orNull_sentimentName (o : option Sentiment) :
  orNull (option_map sentimentName o) = option_map sentimentName o.
Proof. destruct o as [[]|]; reflexivity. Qed.

(** What the page reads back from the answer of GET /api/insights. *)
Lemma readFilters_filtersJson (f : Filters) :
  readFilters (filtersJson f) =
    Some (mkFilter (option_map sentimentName (f_sentiment f))
                   (orNull (f_keyword f))).
Proof.
  destruct f as [[x|] [k|]]; cbn [filtersJson f_sentiment f_keyword option_map
                                  ofOptStr];
    unfold readFilters;
    repeat (cbn [lookup]; rewrite ?str_eqb_refl);
    try (destruct x); reflexivity.
Qed.

Lemma handleQuery_run (env : Env) (input : str) (cur : Filter) (w : World) :
  trim input <> [] ->
  let query := trim input in
  let sent := detectSentiment (toLowerCase query) in
  let cur' := mkFilter (option_map sentimentName sent)
                       (orNull (Spec.keyword query sent)) in
  handleQuery env input cur w =
    (let '(c, w2) := loadFeedback env cur' w in ((cur', Some c), w2)).
Proof.
  intros Hq query sent cur'. unfold handleQuery. fold query.
  replace (str_eqb query []) with false by (symmetry; now apply str_eqb_neq).
  rewrite (fetch_get_api_insights env (insightsRequest query) eq_refl).
  unfold getApiInsights. cbn [searchParams insightsRequest searchGet].
  rewrite str_eqb_refl. cbn [truthyStr].
  replace (str_eqb query []) with false by (symmetry; now apply str_eqb_neq).
  cbn [negb].
  destruct (interpret_keyword_rule query (endsWithSpace_trim input))
    as (f & Hf & Hk).
  destruct (interpret_normal query) as (kw & Hn & _).
  rewrite Hf in Hn. injection Hn as ->. cbn [f_keyword f_sentiment] in Hk.
  rewrite Hf. unfold ret. rewrite readFilters_filtersJson.
  cbn [f_keyword f_sentiment]. rewrite Hk.
  assert (Hc : forall o k,
             hasCard (cf_sentiment (mkFilter (option_map sentimentName o) k)) = true)
    by (intros [[]|] k; reflexivity).
  rewrite Hc. reflexivity.
Qed.

(** A query typed into the page is trimmed before it is sent, so the
    filter the page ends up with always follows the keyword rule: the
    token after "about", else the token after "with", else the whole query
    when no sentiment was detected; an empty keyword becomes null.  The
    page then reloads the list with that filter. *)
Theorem query_box_follows_rule
        (env : Env) (input : str) (cur : Filter) (w : World) :
  trim input <> [] ->
  let query := trim input in
  let sent := detectSentiment (toLowerCase query) in
  let cur' := mkFilter (option_map sentimentName sent)
                       (orNull (Spec.keyword query sent)) in
  fst (handleQuery env input cur w)
    = (cur', Some (fst (loadFeedback env cur' w))) /\
  snd (handleQuery env input cur w) = snd (loadFeedback env cur' w).
Proof.
  intros Hq query sent cur'. rewrite (handleQuery_run env input cur w Hq).
  fold query sent cur'. now destruct (loadFeedback env cur' w).
Qed.

Lemma query_box_follows_rule_witness :
  fst (handleQuery Sample.env (lit "  what about Billing  ") initialFilter
                   Sample.empty)
    = (mkFilter None (Some (lit "billing")),
       Some (fst (loadFeedback Sample.env
                    (mkFilter None (Some (lit "billing"))) Sample.empty))) /\
  snd (handleQuery Sample.env (lit "  what about Billing  ") initialFilter
                   Sample.empty)
    = snd (loadFeedback Sample.env
             (mkFilter None (Some (lit "billing"))) Sample.empty).
Proof.
  apply (@query_box_follows_rule Sample.env (lit "  what about Billing  ")
                                 initialFilter Sample.empty).
  discriminate.
Defined.

(** An input of white space only sends nothing and changes nothing. *)
Lemma handleQuery_blank (env : Env) (input : str) (cur : Filter) (w : World) :
  trim input = [] -> handleQuery env input cur w = ((cur, None), w).
Proof. intros H. unfold handleQuery. now rewrite H. Qed.

Lemma buildConds_truthy (s k : option str) :
  buildConds s k = buildConds (orNull s) (orNull k).
Proof.
  unfold buildConds, orNull.
  destruct s as [[|c s]|], k as [[|d k]|]; reflexivity.
Qed.


(** The filter of the page stays tidy: after a click on a card and after
    a query it holds no empty string and its keyword has at most 50
    characters, so every keyword the page sends is non-empty and within
    that length. *)
Theorem page_filter_stays_tidy (cur : Filter) :
  tidyFilter cur ->
  (forall s, s <> [] -> tidyFilter (toggle s cur)) /\
  (forall env input w, tidyFilter (fst (fst (handleQuery env input cur w)))) /\
  (forall k, In (lit "keyword", k) (feedbackParams cur) ->
             k <> [] /\ List.length k <= 50).
Proof.
  intros (Hs & Hk & Hl). split; [|split].
  - intros s Hne. unfold toggle, optStr_eqb, tidyFilter.
    destruct (cf_sentiment cur) as [x|]; [destruct (str_eqb x s)|];
      cbn [cf_sentiment cf_keyword]; repeat split; auto; congruence.
  - intros env input w.
    destruct (list_eq_dec ascii_dec (trim input) []) as [E|E].
    { rewrite (handleQuery_blank env input cur w E). cbn. repeat split; auto. }
    rewrite (handleQuery_run env input cur w E). cbv zeta.
    destruct (loadFeedback env _ w) as [c w2]. cbn [fst cf_sentiment cf_keyword].
    repeat split; cbn [cf_sentiment cf_keyword].
    + destruct (detectSentiment _) as [[]|]; discriminate.
    + unfold orNull. destruct (Spec.keyword _ _) as [[|c0 k]|]; cbn; discriminate.
    + intros k. unfold orNull, Spec.keyword.
      destruct (tokenAfter (lit "about") _) as [t|].
      { destruct (truthyStr _); [|discriminate]. intros H.
        replace k with (substring0 50 t) by congruence. apply substring0_length. }
      destruct (tokenAfter (lit "with") _) as [t|].
      { destruct (truthyStr _); [|discriminate]. intros H.
        replace k with (substring0 50 t) by congruence. apply substring0_length. }
      destruct (detectSentiment _); [discriminate|].
      destruct (truthyStr _); [|discriminate]. intros H.
      replace k with (substring0 50 (trim (trim input))) by congruence.
      apply substring0_length.
  - intros k. unfold feedbackParams.
    destruct (cf_sentiment cur) as [[|c s]|], (cf_keyword cur) as [[|d k0]|];
      cbn; try tauto; try congruence;
      intros H; repeat (destruct H as [H|H]; try discriminate; try contradiction);
      injection H as <-; (split; [discriminate | now apply Hl]).
Qed.

Lemma page_filter_stays_tidy_witness :
  (forall s, s <> [] -> tidyFilter (toggle s initialFilter)) /\
  (forall env input w,
     tidyFilter (fst (fst (handleQuery env input initialFilter w)))) /\
  (forall k, In (lit "keyword", k) (feedbackParams initialFilter) ->
             k <> [] /\ List.length k <= 50).
Proof.
  apply (@page_filter_stays_tidy initialFilter).
  repeat split; cbn; discriminate.
Defined.

End Page.


(** ** The prototype, and the two handlers side by side *)

Section PrototypeFacts.

Import Worker Spec.

Lemma nullish_not_null (v : value) (d : json) :
  d <> JNull -> nullish v d <> JNull.
Proof. intros Hd. destruct v as [[]|]; cbn; congruence. Qed.

(** A request carries a usable text: its body is an object whose [text]
    is a string that is not blank. *)
Lemma usable_or_invalid (req : Request) :
  (exists ms s, payload req = Some (JObj ms) /\
                lookup (lit "text") ms = Some (JStr s) /\ trim s <> []) \/
  payload req = None \/
  (exists b, payload req = Some b /\ invalidText (textOf b)).
Proof.
  destruct (payload req) as [b|]; [|auto].
  destruct b as [| | | | |ms]; try (right; right; eexists; split; [reflexivity|exact I]).
  destruct (lookup (lit "text") ms) as [[| | |s| |]|] eqn:E;
    try (right; right; eexists; split; [reflexivity|]; cbn [textOf]; rewrite E; exact I).
  destruct (list_eq_dec ascii_dec (trim s) []) as [H|H].
  - right; right. eexists. split; [reflexivity|]. cbn [textOf]. now rewrite E.
  - left. exists ms, s. auto.
Qed.

(** Every request to the prototype ends in one of three ways: 200 with
    one entry appended, whose text is not blank, whose source is not null
    and whose time is the time of the request; 400 with the store as it
    was; or, for anything but POST /feedback, 404 with the store as it
    was (the prototype has no route that reads the store). *)
Theorem prototype_outcome (now : str) (req : Request)
        (store : Prototype.feedbackStore) :
  let r := fst (Prototype.fetch now req store) in
  let store' := snd (Prototype.fetch now req store) in
  (route req "/feedback" "POST" = true /\ status r = 200 /\
   exists e, store' = store ++ [e] /\ trim (Prototype.e_text e) <> [] /\
             Prototype.e_source e <> JNull /\ Prototype.e_createdAt e = now) \/
  (route req "/feedback" "POST" = true /\ status r = 400 /\ store' = store) \/
  (route req "/feedback" "POST" = false /\ status r = 404 /\ store' = store).
Proof.
  cbv zeta. unfold Prototype.fetch.
  destruct (route req "/feedback" "POST") eqn:Hr; [|right; right; auto].
  destruct (usable_or_invalid req) as [(ms & s & Hp & Ht & Hs) | [Hp | (b & Hp & Hi)]].
  - left. unfold Prototype.tryPost. rewrite Hp, Ht.
    cbn [toBoolean isString stringOf negb orb].
    assert (Hne : s <> []) by (intros ->; now apply Hs).
    apply str_eqb_neq in Hne. rewrite Hne. cbn [negb orb].
    destruct (trim s) as [|c t] eqn:E; [congruence|]. cbn [List.length Nat.eqb fst snd].
    repeat split; auto. eexists. split; [reflexivity|].
    cbn [Prototype.e_text Prototype.e_source Prototype.e_createdAt].
    repeat split; auto; [rewrite E; discriminate|].
    apply nullish_not_null. discriminate.
  - right; left. unfold Prototype.tryPost. rewrite Hp. auto.
  - right; left.
    destruct (@prototype_rejects_invalid now req store b Hr Hp Hi) as [H4 Hst].
    unfold Prototype.fetch in H4, Hst. rewrite Hr in H4, Hst. auto.
Qed.

(** The two handlers accept the same requests: the prototype stores an
    entry exactly when the worker goes on to call the classifier, that is
    when the body is an object whose [text] is a string that is not
    blank; on every other request the worker makes no external call. *)
Theorem handlers_accept_the_same
        (env : Env) (now : str) (req : Request)
        (w : World) (store : Prototype.feedbackStore) :
  route req "/feedback" "POST" = true ->
  (status (fst (Prototype.fetch now req store)) = 200 <->
   calls (snd (fetch env req w)) <> calls w) /\
  (calls (snd (fetch env req w)) <> calls w ->
   exists s extra,
     calls (snd (fetch env req w)) = calls w ++ CallAI s :: extra /\
     exists src, snd (Prototype.fetch now req store)
                 = store ++ [Prototype.mkEntry s src now]).
Proof.
  intros Hr. rewrite (fetch_post env req Hr).
  assert (grow : forall (l : list Call) x extra, l ++ x :: extra <> l).
  { intros l x extra H. apply (f_equal (@List.length _)) in H.
    rewrite length_app in H. cbn in H. lia. }
  destruct (usable_or_invalid req) as [(ms & s & Hp & Ht & Hs) | [Hp | (b & Hp & Hi)]].
  - assert (Hproto : Prototype.fetch now req store =
              (successResponse,
               store ++ [Prototype.mkEntry s
                           (nullish (lookup (lit "source") ms) (JStr (lit "unknown")))
                           now])).
    { unfold Prototype.fetch, Prototype.tryPost. rewrite Hr, Hp, Ht.
      cbn [toBoolean isString stringOf negb orb].
      assert (Hne : s <> []) by (intros ->; now apply Hs).
      apply str_eqb_neq in Hne. rewrite Hne. cbn [negb orb].
      destruct (trim s) as [|c t] eqn:E; [congruence|]. reflexivity. }
    assert (Hcalls : exists extra,
              calls (snd (postFeedback env req w)) = calls w ++ CallAI s :: extra).
    { rewrite (postFeedback_run env req w Hp Ht Hs).
      destruct (AI env s); cbn zeta.
      - match goal with |- context [if ?c then _ else _] => destruct c end;
          cbn [snd calls]; rewrite <- app_assoc; cbn [app]; eauto.
      - cbn [snd calls]. eauto. }
    destruct Hcalls as [extra Hc]. rewrite Hproto, Hc. cbn [fst snd status].
    split.
    + split; [intros _; apply grow | reflexivity].
    + intros _. exists s, extra. split; [reflexivity|]. eauto.
  - assert (Hw : snd (postFeedback env req w) = w)
      by (unfold postFeedback; now rewrite Hp).
    assert (Hproto : status (fst (Prototype.fetch now req store)) = 400)
      by (unfold Prototype.fetch, Prototype.tryPost; now rewrite Hr, Hp).
    rewrite Hw, Hproto. split; [split; [discriminate | congruence] | congruence].
  - rewrite (postFeedback_invalid_untouched env req w Hp Hi).
    destruct (@prototype_rejects_invalid now req store b Hr Hp Hi) as [H4 _].
    rewrite H4. split; [split; [discriminate | congruence] | congruence].
Qed.

Lemma handlers_accept_the_same_witness :
  (status (fst (Prototype.fetch Sample.now (Sample.post Sample.loveIt) [])) = 200 <->
   calls (snd (fetch Sample.env (Sample.post Sample.loveIt) Sample.empty))
     <> calls Sample.empty) /\
  (calls (snd (fetch Sample.env (Sample.post Sample.loveIt) Sample.empty))
     <> calls Sample.empty ->
   exists s extra,
     calls (snd (fetch Sample.env (Sample.post Sample.loveIt) Sample.empty))
       = calls Sample.empty ++ CallAI s :: extra /\
     exists src, snd (Prototype.fetch Sample.now (Sample.post Sample.loveIt) [])
                 = [] ++ [Prototype.mkEntry s src Sample.now]).
Proof.
  apply (@handlers_accept_the_same Sample.env Sample.now
           (Sample.post Sample.loveIt) Sample.empty []).
  reflexivity.
Defined.

(** For every query that does not end in white space the interpreter's
    keyword follows the rule of precedence: the first
    white-space-delimited token after the leftmost "about ", else the one
    after the leftmost "with ", else the whole trimmed query when no
    sentiment was detected, else none; always cut to 50 characters. *)
Theorem keyword_rule_without_trailing_space (query : str) :
  endsWithSpace query = false ->
  exists f, interpret query = Normal f /\
            f_sentiment f = detectSentiment (toLowerCase query) /\
            f_keyword f = Spec.keyword query (f_sentiment f).
Proof.
  intros He. destruct (interpret_keyword_rule query He) as (f & Hf & Hk).
  destruct (interpret_normal query) as (kw & Hn & _).
  exists f. split; [exact Hf|]. split; [|exact Hk].
  rewrite Hf in Hn. now injection Hn as ->.
Qed.

Lemma keyword_rule_without_trailing_space_witness :
  exists f, interpret (lit "problems with Login page") = Normal f /\
            f_sentiment f
              = detectSentiment (toLowerCase (lit "problems with Login page")) /\
            f_keyword f = Spec.keyword (lit "problems with Login page")
                                       (f_sentiment f).
Proof.
  apply (@keyword_rule_without_trailing_space (lit "problems with Login page")).
  reflexivity.
Defined.

(** A text that is missing, falsy or blank is answered by the worker
    with 400 "Missing or empty text field", and nothing is called or
    stored. *)
Theorem blank_text_is_rejected
        (env : Env) (req : Request) (w : World) (b : json) :
  route req "/feedback" "POST" = true ->
  payload req = Some b -> b <> JNull ->
  toBoolean (textOf b) = false \/
  (exists s, textOf b = Some (JStr s) /\ trim s = []) ->
  fetch env req w =
    (Normal (errorResponse 400 "Missing or empty text field"), w).
Proof.
  intros Hr Hp Hb Hi. rewrite (fetch_post env req Hr).
  now apply postFeedback_rejects_blank with b.
Qed.

Lemma blank_text_is_rejected_witness :
  fetch Sample.env
        (Sample.post (JObj [(lit "text", JStr (lit "   "))])) Sample.empty =
    (Normal (errorResponse 400 "Missing or empty text field"), Sample.empty).
Proof.
  apply (@blank_text_is_rejected Sample.env
           (Sample.post (JObj [(lit "text", JStr (lit "   "))])) Sample.empty
           (JObj [(lit "text", JStr (lit "   "))]));
    [reflexivity | reflexivity | discriminate |].
  right. exists (lit "   "). split; reflexivity.
Defined.

End PrototypeFacts.

